(** * Pyface: a shallow embedding of the logic-bearing glue code

    The development follows the Python sources of the package:
    - [pyface/ui/wx/python_shell.py]   ([PythonShell], [PyShell]),
    - [pyface/ui/wx/window.py]   ([Window]),
    - [pyface/ui/qt4/action/menu_bar_manager.py]   ([MenuBarManager]),
    - [pyface/ui/qt4/util/gui_test_assistant.py]   ([GuiTestAssistant]),
    - [pyface/tests/test_clipboard.py]   ([TestObject]),
    and the behaviour that the test-suite fixes for the dialogs, the actions
    and the toolkit resolver.

    Python code is stateful and may raise, so every method is embedded as a
    function in a small state-and-exception monad [Py.M].  Calls into the
    native toolkits are recorded in an event log carried by the state, which
    is what the theorems observe. *)

From stdpp Require Import base gmap strings list pretty.
From Stdlib Require Import Ascii.

Local Open Scope string_scope.
Local Open Scope list_scope.

(** ** Python control flow: state, exceptions, [try ... finally] *)

Module Py.

  (** The exception classes that the embedded code raises or lets through. *)
Inductive Exc : Type :=
  | ValueError
  | KeyError (key : string)
  | OSError (path : string)
  | SyntaxError
  | AssertionError
  | ConditionTimeoutError
  | NotImplementedError
  | AttributeError (name : string)
  | ImportError (name : string)
  | RuntimeError (code : nat).

Inductive Res (A : Type) : Type :=
  | Ok (a : A)
  | Raise (e : Exc).
Arguments Ok {A} a.
Arguments Raise {A} e.

Definition M (S A : Type) : Type := S → Res A * S.

Definition ret {S A} (a : A) : M S A := λ s, (Ok a, s).

Definition bind {S A B} (k : A → M S B) (c : M S A) : M S B :=
    λ s, match c s with
         | (Ok a, s') => k a s'
         | (Raise e, s') => (Raise e, s')
         end.

Definition raise {S A} (e : Exc) : M S A := λ s, (Raise e, s).

Definition get {S} : M S S := λ s, (Ok s, s).
Definition modify {S} (f : S → S) : M S unit := λ s, (Ok tt, f s).

  (** [try: body finally: fin].  The [finally] suite always runs; when it
      returns normally the outcome of [body] (value or exception) stands,
      when it raises, its exception replaces that outcome. *)
Definition try_finally {S A} (body : M S A) (fin : M S unit) : M S A :=
    λ s, match body s with
         | (r, s1) =>
             match fin s1 with
             | (Ok _, s2) => (r, s2)
             | (Raise e, s2) => (Raise e, s2)
             end
         end.

  (** [for x in xs: f x], stopping at the first exception. *)
Fixpoint for_each {S X} (f : X → M S unit) (xs : list X) : M S unit :=
    match xs with
    | [] => ret tt
    | x :: rest => bind (λ _, for_each f rest) (f x)
    end.

Definition when {S} (b : bool) (c : M S unit) : M S unit :=
    if b then c else ret tt.

Definition raises {A} (r : Res A) : bool :=
    match r with Ok _ => false | Raise _ => true end.

End Py.

Import Py.

#[global] Instance py_ret {S} : MRet (M S) := @Py.ret S.
#[global] Instance py_bind {S} : MBind (M S) := @Py.bind S.

(** ** [PythonShell.execute_file]  (pyface/ui/wx/python_shell.py) *)

Module PythonShell.

  (** Objects that can be bound to [sys.stdin], [sys.stdout], [sys.stderr]. *)
Inductive Stream : Type :=
  | NullIO                 (* an instance of [_NullIO] *)
  | Control                (* [self.control], the [PyShell] widget *)
  | File (fd : nat).       (* anything else, e.g. the console streams *)

  (** Module objects that can sit in [sys.modules['__main__']]. *)
Inductive ModuleRef : Type :=
  | FreshMain              (* [types.ModuleType('__main__')] of this call *)
  | Loaded (id : nat).

  (** Values stored in a module namespace. *)
Inductive Value : Type :=
  | VNone
  | VStr (s : string)
  | VLambdaTrue            (* [lambda: True] *)
  | VObj (id : nat).

  (** The part of the [sys] module that [execute_file] touches. *)
Record Sys : Type := mkSys {
    argv : list string;
    main : ModuleRef;
    stdin : Stream;
    stdout : Stream;
    stderr : Stream
  }.

  (** Calls on the shell control made by [execute_file]. *)
Inductive CtlCall : Type :=
  | ClearCommand
  | Write (text : string)
  | Prompt.

  (** A compiled script, run by [exec(code, prog_ns, prog_ns)]: it can read
      and rebind everything in [sys], mutate its namespace, and raise. *)
Definition Code : Type := Sys → gmap string Value → Res unit * (Sys * gmap string Value).

  (** The state: [sys], the interpreter's locals, the dictionary object
      [prog_ns] of the fresh module (shared with the running script), and
      two logs. *)
Record World : Type := mkWorld {
    sys : Sys;
    locals : gmap string Value;        (* [self.interpreter().locals] *)
    prog_ns : gmap string Value;       (* [main_mod.__dict__] *)
    ctl_log : list CtlCall;            (* calls that [execute_file] makes on the control *)
    exec_log : list Sys                (* [sys] as each script finds it when it starts *)
  }.

Definition set_sys (f : Sys → Sys) : M World unit :=
    modify (λ w, mkWorld (f (sys w)) (locals w) (prog_ns w) (ctl_log w) (exec_log w)).
Definition set_prog_ns (f : gmap string Value → gmap string Value) : M World unit :=
    modify (λ w, mkWorld (sys w) (locals w) (f (prog_ns w)) (ctl_log w) (exec_log w)).
Definition set_locals (f : gmap string Value → gmap string Value) : M World unit :=
    modify (λ w, mkWorld (sys w) (f (locals w)) (prog_ns w) (ctl_log w) (exec_log w)).

Definition set_argv (v : list string) (s : Sys) : Sys :=
    mkSys v (main s) (stdin s) (stdout s) (stderr s).
Definition set_main (m : ModuleRef) (s : Sys) : Sys :=
    mkSys (argv s) m (stdin s) (stdout s) (stderr s).
Definition set_stdin (x : Stream) (s : Sys) : Sys :=
    mkSys (argv s) (main s) x (stdout s) (stderr s).
Definition set_stdout (x : Stream) (s : Sys) : Sys :=
    mkSys (argv s) (main s) (stdin s) x (stderr s).
Definition set_stderr (x : Stream) (s : Sys) : Sys :=
    mkSys (argv s) (main s) (stdin s) (stdout s) x.

  (** [os.path.basename]: what follows the last slash. *)
Fixpoint has_slash (s : string) : bool :=
    match s with
    | EmptyString => false
    | String c r => Ascii.eqb c "/" || has_slash r
    end.

Fixpoint basename (s : string) : string :=
    match s with
    | EmptyString => EmptyString
    | String c r => if Ascii.eqb c "/" || has_slash r then basename r else s
    end.

  (** The namespace of [types.ModuleType('__main__')]. *)
Definition module_dict : gmap string Value :=
    <["__name__" := VStr "__main__"]>
    (<["__doc__" := VNone]>
    (<["__package__" := VNone]>
    (<["__loader__" := VNone]>
    (<["__spec__" := VNone]> ∅)))).

  (** [del prog_ns[k]]. *)
Definition del (k : string) : M World unit :=
    λ w, match prog_ns w !! k with
         | Some _ => set_prog_ns (delete k) w
         | None => (Raise (KeyError k), w)
         end.

Section WithEnvironment.

    (** What [compile(open(path, "rb").read(), path, 'exec')] yields: the
        exception it raises, or the code object. *)
Variable load : string → Exc + Code.

    (** Whether a call on the native control raises. *)
Variable ctl_raises : CtlCall → option Exc.

Definition ctl (c : CtlCall) : M World unit :=
      λ w, match ctl_raises c with
           | Some e => (Raise e, w)
           | None =>
               (Ok tt, mkWorld (sys w) (locals w) (prog_ns w) (ctl_log w ++ [c]) (exec_log w))
           end.

    (** [exec(compile(open(path, "rb").read(), path, 'exec'), prog_ns, prog_ns)].
        The script works on the dictionary object itself: its updates stay
        when it raises. *)
Definition exec (path : string) : M World unit :=
      λ w, match load path with
           | inl e => (Raise e, w)
           | inr code =>
               match code (sys w) (prog_ns w) with
               | (r, (s', ns')) =>
                   (r, mkWorld s' (locals w) ns' (ctl_log w) (exec_log w ++ [sys w]))
               end
           end.

Definition quote : ascii := "034"%char.
Definition newline : ascii := "010"%char.

    (** ['# Executing "%s"\n' % path] *)
Definition executing (path : string) : string :=
      "# Executing " +:+ String quote (path +:+ String quote (String newline EmptyString)).

Definition execute_file (path : string) (hidden : bool) : M World unit :=
      λ w0,
        let filename := basename path in
        let save_argv := argv (sys w0) in
        let save_main := main (sys w0) in
        let old_stdin := stdin (sys w0) in
        let old_stdout := stdout (sys w0) in
        let old_stderr := stderr (sys w0) in
        let target := if hidden then NullIO else Control in
        ((* Run in a fresh, empty namespace *)
         set_prog_ns (λ _, module_dict) ;;
         set_prog_ns <["__file__" := VStr filename]> ;;
         set_prog_ns <["__nonzero__" := VLambdaTrue]> ;;
         set_sys (set_argv [filename]) ;;
         set_sys (set_main FreshMain) ;;
         (* Redirect sys.std* to control or null *)
         set_sys (set_stdin target) ;;
         set_sys (set_stdout target) ;;
         set_sys (set_stderr target) ;;
         (* Execute the file *)
         try_finally
           (when (negb hidden) (ctl ClearCommand ;; ctl (Write (executing path))) ;;
            exec path ;;
            when (negb hidden) (ctl Prompt))
           ((* Ensure key global stuctures are restored *)
            set_sys (set_argv save_argv) ;;
            set_sys (set_main save_main) ;;
            set_sys (set_stdin old_stdin) ;;
            set_sys (set_stdout old_stdout) ;;
            set_sys (set_stderr old_stderr)) ;;
         (* Update the interpreter with the new namespace *)
         del "__name__" ;;
         del "__file__" ;;
         del "__nonzero__" ;;
         ns ← get;
         set_locals (λ l, prog_ns ns ∪ l)) w0.

End WithEnvironment.

  (** The streams are all bound to [x]. *)
Definition redirected_to (x : Stream) (s : Sys) : Prop :=
    stdin s = x ∧ stdout s = x ∧ stderr s = x.

  (** Whether [execute_file] gets as far as starting the script. *)
Definition script_starts (load : string → Exc + Code)
      (ctl_raises : CtlCall → option Exc) (path : string) (hidden : bool) : bool :=
    match load path with
    | inl _ => false
    | inr _ =>
        hidden ||
          (bool_decide (ctl_raises ClearCommand = None) &&
           bool_decide (ctl_raises (Write (executing path)) = None))
    end.

End PythonShell.

(** ** [PyShell]  (pyface/ui/wx/python_shell.py) *)

Module PyShell.

(** Calls that leave the class: to [wx], to the [wx.py] base class, to the
    interpreter and to the registered handlers. *)
Inductive Call : Type :=
| BeginBusyCursor
| EndBusyCursor
| InterpPush (command : string)
| AddHistory (command : string)
| Handler (h : nat)
| AutoCompSetAutoHide (b : bool)
| AutoCompSetIgnoreCase (b : bool)
| GetAutoCompleteList (command : string) (includeMagic includeSingle includeDouble : bool)
| AutoCompShow (offset : Z) (options : string).

#[global] Instance call_eq_dec : EqDecision Call.
Proof. solve_decision. Defined.

Record Shell : Type := mkShell {
  waiting : bool;
  more : bool;
  handlers : list nat;                 (* the callables, by identity *)
  autocomp_list : list string;
  autoCompleteAutoHide : bool;
  autoCompleteCaseInsensitive : bool;
  autoCompleteIncludeMagic : bool;
  calls : list Call                    (* log of outgoing calls *)
}.

Definition set_waiting (b : bool) : M Shell unit :=
  modify (λ s, mkShell b (more s) (handlers s) (autocomp_list s) (autoCompleteAutoHide s)
                 (autoCompleteCaseInsensitive s) (autoCompleteIncludeMagic s) (calls s)).
Definition set_more (b : bool) : M Shell unit :=
  modify (λ s, mkShell (waiting s) b (handlers s) (autocomp_list s) (autoCompleteAutoHide s)
                 (autoCompleteCaseInsensitive s) (autoCompleteIncludeMagic s) (calls s)).
Definition set_autocomp_list (l : list string) : M Shell unit :=
  modify (λ s, mkShell (waiting s) (more s) (handlers s) l (autoCompleteAutoHide s)
                 (autoCompleteCaseInsensitive s) (autoCompleteIncludeMagic s) (calls s)).
Definition autocomp_list_append (v : string) : M Shell unit :=
  modify (λ s, mkShell (waiting s) (more s) (handlers s) (autocomp_list s ++ [v])
                 (autoCompleteAutoHide s) (autoCompleteCaseInsensitive s)
                 (autoCompleteIncludeMagic s) (calls s)).

(** A call that returns normally. *)
Definition call (c : Call) : M Shell unit :=
  modify (λ s, mkShell (waiting s) (more s) (handlers s) (autocomp_list s)
                 (autoCompleteAutoHide s) (autoCompleteCaseInsensitive s)
                 (autoCompleteIncludeMagic s) (calls s ++ [c])).

(** [str.rstrip()] on ASCII text: drop the trailing white space. *)
Definition is_space (c : ascii) : bool :=
  let n := nat_of_ascii c in
  Nat.leb 9 n && Nat.leb n 13 || Nat.leb 28 n && Nat.leb n 32.

Fixpoint rstrip (s : string) : string :=
  match s with
  | EmptyString => EmptyString
  | String c r =>
      match rstrip r with
      | EmptyString => if is_space c then EmptyString else String c EmptyString
      | r' => String c r'
      end
  end.

(** Truth value of the [filter] argument: [None] and the empty string are
    false. *)
Definition truthy (filter : option string) : option string :=
  match filter with
  | Some EmptyString => None
  | other => other
  end.

Section WithInterpreter.

(** [self.interp.push(command)]: raises, or tells whether more input is
    needed. *)
Variable interp_push : string → Exc + bool.

(** Whether calling a handler raises. *)
Variable handler_raises : nat → option Exc.

(** [self.interp.getAutoCompleteList(command, includeMagic, includeSingle,
    includeDouble)] *)
Variable getAutoCompleteList : string → bool → bool → bool → list string.

Definition push_interp (command : string) : M Shell bool :=
  call (InterpPush command) ;;
  match interp_push command with
  | inl e => raise e
  | inr b => mret b
  end.

Definition run_handler (h : nat) : M Shell unit :=
  call (Handler h) ;;
  match handler_raises h with
  | Some e => raise e
  | None => mret tt
  end.

Definition hidden_push (command : string) : M Shell unit :=
  call BeginBusyCursor ;;
  try_finally
    (set_waiting true ;;
     m ← push_interp command;
     set_more m ;;
     set_waiting false ;;
     s ← get;
     when (negb (more s))
       (call (AddHistory (rstrip command)) ;;
        for_each run_handler (handlers s)))
    (call EndBusyCursor).

Definition autoCompleteShow (command : string) (offset : Z) (filter : option string)
  : M Shell unit :=
  s ← get;
  call (AutoCompSetAutoHide (autoCompleteAutoHide s)) ;;
  call (AutoCompSetIgnoreCase (autoCompleteCaseInsensitive s)) ;;
  call (GetAutoCompleteList command (autoCompleteIncludeMagic s) false false) ;;
  let values := getAutoCompleteList command (autoCompleteIncludeMagic s) false false in
  match values with
  | [] => mret tt
  | _ :: _ =>
      set_autocomp_list [] ;;
      match truthy filter with
      | Some f =>
          for_each (λ v, when (String.prefix f v) (autocomp_list_append v)) values
      | None => set_autocomp_list values
      end ;;
      s' ← get;
      let options := String.concat " " (autocomp_list s') in
      call (AutoCompShow offset options)
  end.

End WithInterpreter.



Definition is_show (c : Call) : bool :=
  match c with AutoCompShow _ _ => true | _ => false end.

End PyShell.

(** ** [GuiTestAssistant.event_loop_until_traits_change]
    (pyface/ui/qt4/util/gui_test_assistant.py) *)

Module GuiTestAssistant.

(** Handlers registered with [traits_object.on_trait_change]: those that
    other code registered, and the closures that [make_handler] builds. *)
Inductive Handler : Type :=
| Foreign (id : nat)
| SetEvent (trait : string).      (* [make_handler(trait)] *)

#[global] Instance handler_eq_dec : EqDecision Handler.
Proof. solve_decision. Defined.

Definition is_foreign (h : Handler) : bool :=
  match h with Foreign _ => true | SetEvent _ => false end.

Record State : Type := mkState {
  registry : list (string * Handler);   (* registrations on [traits_object] *)
  recorded_changes : gset string;
  condition : bool;                     (* the [threading.Event] *)
  waited : nat                          (* turns of the event loop spent waiting *)
}.

(** What the [with] block does, as far as this code can see it: the trait
    changes it fires, and the exception it ends with, if any. *)
Record Block : Type := mkBlock {
  fired : list string;
  outcome : option Exc
}.

Section WithTraits.

(** [traits = set(traits)] *)
Variable traits : gset string.

(** [set_event(trait)] *)
Definition set_event (trait : string) (s : State) : State :=
  let recorded := recorded_changes s ∪ {[trait]} in
  mkState (registry s) recorded
    (if decide (recorded = traits) then true else condition s) (waited s).

Definition call_handler (h : Handler) (s : State) : State :=
  match h with
  | Foreign _ => s
  | SetEvent trait => set_event trait s
  end.

(** A change notification for the trait [name]: the handlers registered
    under that name are called in turn. *)
Definition notify (s : State) (name : string) : State :=
  foldl (λ acc p, if decide (p.1 = name) then call_handler p.2 acc else acc)
    s (registry s).

(** [traits_object.on_trait_change(handler, trait)] and the same with
    [remove=True]. *)
Definition on_trait_change (handler : Handler) (trait : string) : M State unit :=
  modify (λ s, mkState (registry s ++ [(trait, handler)]) (recorded_changes s)
                 (condition s) (waited s)).

Definition on_trait_change_remove (handler : Handler) (trait : string) : M State unit :=
  modify (λ s, mkState (filter (λ p, p ≠ (trait, handler)) (registry s))
                 (recorded_changes s) (condition s) (waited s)).

(** One more turn of the event loop. *)
Definition tick (s : State) : State :=
  mkState (registry s) (recorded_changes s) (condition s) (S (waited s)).

(** Modelled from the spec: [EventLoopHelper.event_loop_until_condition]
    (pyface/ui/qt4/util/event_loop_helper.py is not among the sources).  It
    runs the event loop until the condition evaluates to true, for a bounded
    wait: each turn delivers the next pending notification, and when the
    [timeout] turns are used up it raises [ConditionTimeoutError]. *)
Fixpoint helper_event_loop_until_condition (timeout : nat) (pending : list string)
  : M State unit :=
  λ s,
    if condition s then (Ok tt, s)
    else
      match timeout with
      | 0 => (Raise ConditionTimeoutError, s)
      | S timeout' =>
          let s1 :=
            match pending with
            | [] => s
            | name :: _ => notify s name
            end in
          helper_event_loop_until_condition timeout' (tail pending) (tick s1)
      end.

(** Running the block: its notifications are delivered as it fires them. *)
Definition run_block (b : Block) : M State unit :=
  λ s, (match outcome b with Some e => Raise e | None => Ok tt end,
        foldl notify s (fired b)).

(** [self.fail(msg)] *)
Definition fail : M State unit := raise AssertionError.

(** The context manager [event_loop_until_condition], wrapped around a
    block. *)
Definition event_loop_until_condition (timeout : nat) (pending : list string) (b : Block)
  : M State unit :=
  λ s,
    match (run_block b ;; helper_event_loop_until_condition timeout pending) s with
    | (Raise ConditionTimeoutError, s') => fail s'
    | other => other
    end.

(** The state in which the block starts: fresh [condition] and
    [recorded_changes], and one handler installed per trait. *)
Definition listen : M State unit :=
  modify (λ s, mkState (registry s) ∅ false (waited s)) ;;
  (* Correctly handle the corner case where there are no traits. *)
  when (bool_decide (traits = ∅))
    (modify (λ s, mkState (registry s) (recorded_changes s) true (waited s))) ;;
  for_each (λ trait, on_trait_change (SetEvent trait) trait) (elements traits).

Definition event_loop_until_traits_change (timeout : nat) (pending : list string)
    (b : Block) : M State unit :=
  listen ;;
  try_finally
    (event_loop_until_condition timeout pending b)
    (for_each (λ trait, on_trait_change_remove (SetEvent trait) trait) (elements traits)).

End WithTraits.

(** The registrations that [listen] adds for the traits [l]. *)
Definition installed (l : list string) : list (string * Handler) :=
  map (λ trait, (trait, SetEvent trait)) l.

End GuiTestAssistant.

(** ** [MenuBarManager.create_menu_bar]
    (pyface/ui/qt4/action/menu_bar_manager.py) *)

Module MenuBarManager.

(** The [parent] argument: a [QMainWindow], some other widget, or [None]. *)
Inductive Parent : Type :=
| QMainWindow (id : nat)
| QWidget (id : nat)
| NoParent.

Definition is_main_window (p : Parent) : bool :=
  match p with QMainWindow _ => true | _ => false end.

(** A menu manager, as an item of a group: its [name] and its identity. *)
Record MenuManager : Type := mkMenuManager {
  name : string;
  ident : nat
}.

Record Group : Type := mkGroup {
  items : list MenuManager
}.

(** The action manager: its groups and its [controller] trait. *)
Record Manager : Type := mkManager {
  groups : list Group;
  controller : option nat
}.

(** Calls into Qt and into the items, each with the object it returned. *)
Inductive Call : Type :=
| MenuBar (parent : Parent) (bar : nat)                  (* [parent.menuBar()] *)
| SetParentNone (bar : nat)                              (* [bar.setParent(None)] *)
| NewQMenuBar (parent : Parent) (bar : nat)              (* [QtWidgets.QMenuBar(parent)] *)
| CreateMenu (item : MenuManager) (parent : Parent) (controller : option nat) (menu : nat)
                                                         (* [item.create_menu(parent, controller)] *)
| SetText (menu : nat) (text : string)                   (* [menu.menuAction().setText(text)] *)
| AddMenu (bar : nat) (menu : nat).                      (* [bar.addMenu(menu)] *)

Section WithQt.

(** The objects that the toolkit and the items hand out; each may depend on
    everything that was called before. *)
Variable qt_menuBar : Parent → list Call → nat.
Variable qt_QMenuBar : Parent → list Call → nat.
Variable item_create_menu : MenuManager → Parent → option nat → list Call → nat.

(** [sys.platform] *)
Variable platform : string.

Definition call (c : Call) : M (list Call) unit := modify (λ log, log ++ [c]).

Definition menuBar (parent : Parent) : M (list Call) nat :=
  log ← get;
  let bar := qt_menuBar parent log in
  call (MenuBar parent bar) ;; mret bar.

Definition QMenuBar (parent : Parent) : M (list Call) nat :=
  log ← get;
  let bar := qt_QMenuBar parent log in
  call (NewQMenuBar parent bar) ;; mret bar.

Definition create_menu (item : MenuManager) (parent : Parent) (controller : option nat)
  : M (list Call) nat :=
  log ← get;
  let menu := item_create_menu item parent controller log in
  call (CreateMenu item parent controller menu) ;; mret menu.

Definition create_menu_bar (self : Manager) (parent : Parent) (controller : option nat)
  : M (list Call) nat :=
  (* a controller passed in here takes precedence over the trait *)
  let controller :=
    match controller with
    | None => MenuBarManager.controller self
    | Some c => Some c
    end in
  menu_bar ←
    (if is_main_window parent && bool_decide (platform = "darwin") then
       old ← menuBar parent;
       call (SetParentNone old) ;;
       menuBar parent
     else QMenuBar parent);
  (* Every item in every group must be a menu manager. *)
  for_each (λ group,
    for_each (λ item,
      menu ← create_menu item parent controller;
      call (SetText menu (name item)) ;;
      call (AddMenu menu_bar menu)) (items group)) (groups self) ;;
  mret menu_bar.

End WithQt.

(** The calls that one pass over [its] makes on the bar [bar]: for each
    item in order, one menu created, given the item's name, and added. *)
Inductive item_calls (bar : nat) (parent : Parent) (controller : option nat)
  : list MenuManager → list Call → Prop :=
| item_calls_nil : item_calls bar parent controller [] []
| item_calls_cons item menu its log :
    item_calls bar parent controller its log →
    item_calls bar parent controller (item :: its)
      (CreateMenu item parent controller menu :: SetText menu (name item)
         :: AddMenu bar menu :: log).

Definition all_items (self : Manager) : list MenuManager :=
  concat (map items (groups self)).

End MenuBarManager.

(** ** [SingleChoiceDialog]  (exercised by pyface/tests/test_single_choice_dialog.py) *)

Module SingleChoiceDialog.

(** Python values that the tests use as choices: strings, integers, and
    objects with attributes. *)
Inductive Value : Type :=
| Str (s : string)
| Int (n : Z)
| Obj (repr : string) (attrs : list (string * Value)).

(** [str(value)] *)
Definition str (v : Value) : string :=
  match v with
  | Str s => s
  | Int n => pretty n
  | Obj repr _ => repr
  end.

Fixpoint lookup_attr (name : string) (attrs : list (string * Value)) : option Value :=
  match attrs with
  | [] => None
  | (k, v) :: rest => if decide (k = name) then Some v else lookup_attr name rest
  end.

(** [getattr(value, name)] *)
Definition getattr (v : Value) (name : string) : Res Value :=
  match v with
  | Obj _ attrs =>
      match lookup_attr name attrs with
      | Some a => Ok a
      | None => Raise (AttributeError name)
      end
  | _ => Raise (AttributeError name)
  end.

(** [[f(x) for x in xs]], stopping at the first exception. *)
Fixpoint comprehension {A B} (f : A → Res B) (xs : list A) : Res (list B) :=
  match xs with
  | [] => Ok []
  | x :: rest =>
      match f x with
      | Raise e => Raise e
      | Ok y =>
          match comprehension f rest with
          | Raise e => Raise e
          | Ok ys => Ok (y :: ys)
          end
      end
  end.

Inductive ReturnCode : Type := OK | CANCEL.

(** The native dialog widget: the entry shown as selected, and whether the
    dialog was accepted. *)
Record Control : Type := mkControl {
  text_value : string;
  accepted : bool
}.

Record Dialog : Type := mkDialog {
  choices : list Value;
  name_attribute : string;            (* [''] when not set *)
  choice : option Value;              (* [None] when nothing is chosen *)
  return_code : ReturnCode;
  control : option Control
}.

(** Modelled from the spec: [SingleChoiceDialog._choice_strings]
    (pyface/single_choice_dialog.py and the toolkit classes behind it are not
    among the sources).  The choices are converted to strings, through the
    attribute named by [name_attribute] when that is set; the choice list
    must reject empty or duplicate entries, with a value error. *)
Definition _choice_strings (self : Dialog) : Res (list string) :=
  match
    (if decide (name_attribute self = EmptyString) then Ok (choices self)
     else comprehension (λ obj, getattr obj (name_attribute self)) (choices self))
  with
  | Raise e => Raise e
  | Ok objs =>
      let strings := map str objs in
      if decide (length strings = 0) then Raise ValueError
      else if decide (length strings = length (remove_dups strings)) then Ok strings
      else Raise ValueError
  end.

(** The string that stands for one choice, when there is one. *)
Definition choice_string (name_attribute : string) (c : Value) : option string :=
  if decide (name_attribute = EmptyString) then Some (str c)
  else match c with
       | Obj _ attrs => str <$> lookup_attr name_attribute attrs
       | _ => None
       end.

(** The string representations of the choices, when every choice has one. *)
Definition string_representations (self : Dialog) : option (list string) :=
  mapM (choice_string (name_attribute self)) (choices self).

(** What the modal dialog tester does with the opened dialog. *)
Inductive Action : Type :=
| SetTextValue (value : string)     (* [control.setTextValue(value)] *)
| CloseAccept                       (* [tester.close(accept=True)] *)
| CloseReject                       (* [tester.close(accept=False)] *)
| WidgetClose.                      (* [tester.get_dialog_widget().close()] *)

(** Selecting an entry in the widget; a text that is no entry selects
    nothing. *)
Definition setTextValue (strings : list string) (value : string) (c : Control) : Control :=
  if decide (value ∈ strings) then mkControl value (accepted c) else c.

Fixpoint index_of (value : string) (strings : list string) : option nat :=
  match strings with
  | [] => None
  | s :: rest => if decide (s = value) then Some 0 else S <$> index_of value rest
  end.

(** The choice that the entry [value] stands for. *)
Definition entry (self : Dialog) (strings : list string) (value : string) : option Value :=
  match index_of value strings with
  | Some i => choices self !! i
  | None => None
  end.

(** The widget until it is closed: what it shows and how it was closed.  A
    dialog that nobody accepts is not accepted. *)
Fixpoint run (strings : list string) (c : Control) (actions : list Action) : Control :=
  match actions with
  | [] => c
  | SetTextValue value :: rest => run strings (setTextValue strings value c) rest
  | CloseAccept :: _ => mkControl (text_value c) true
  | CloseReject :: _ => mkControl (text_value c) false
  | WidgetClose :: _ => mkControl (text_value c) false
  end.

(** Modelled from the spec: [SingleChoiceDialog.open] with its [close]
    (pyface/single_choice_dialog.py, pyface/i_dialog.py and the toolkit
    classes behind them are not among the sources), driven by the modal
    dialog tester.  The widget lists the choice strings and starts on the
    current choice, or on the first entry when there is none; a dialog closed
    with explicit acceptance yields the selected entry and [OK], a dialog
    closed without it yields no chosen value and [CANCEL]; closing releases
    the widget. *)
Definition open (self : Dialog) (actions : list Action) : Res Dialog :=
  match _choice_strings self with
  | Raise e => Raise e
  | Ok strings =>
      let initial :=
        match choice self ≫= choice_string (name_attribute self) with
        | Some s => s
        | None => hd EmptyString strings
        end in
      let c := run strings (mkControl initial false) actions in
      Ok (mkDialog (choices self) (name_attribute self)
            (if accepted c then entry self strings (text_value c) else None)
            (if accepted c then OK else CANCEL)
            None)
  end.


End SingleChoiceDialog.

(** ** [toolkit_object]  (used by pyface/expandable_panel.py,
    pyface/resource_manager.py, pyface/viewer/table_viewer.py and the tests) *)

Module Toolkit.

(** A class object, as far as its users look at it. *)
Record Class : Type := mkClass {
  class_name : string;                (* [__name__] *)
  implemented : bool                  (* whether it can be instantiated *)
}.

(** The sentinel class. *)
Definition Unimplemented : Class := mkClass "Unimplemented" false.

(** [s.split(sep)] *)
Fixpoint split (sep : ascii) (s : string) : list string :=
  match s with
  | EmptyString => [EmptyString]
  | String c rest =>
      if Ascii.eqb c sep then EmptyString :: split sep rest
      else match split sep rest with
           | piece :: pieces => String c piece :: pieces
           | [] => [String c EmptyString]
           end
  end.

Definition colon : ascii := ":"%char.

(** Modelled from the spec: [toolkit_object] (pyface/toolkit.py is not among
    the sources).  A string naming "module:ClassName" is resolved against
    the active toolkit, given here by the modules it provides and their
    attributes; a resolution failure surfaces as the sentinel class instead
    of an exception. *)
Definition toolkit_object (toolkit : gmap string (gmap string Class)) (name : string)
  : Res Class :=
  match split colon name with
  | [mname; oname] =>
      match toolkit !! mname with
      | None => Ok Unimplemented
      | Some module =>
          match module !! oname with
          | None => Ok Unimplemented
          | Some class => Ok class
          end
      end
  | _ => Raise ValueError
  end.

(** What the specification resolves to in the toolkit, if anything. *)
Definition resolve (toolkit : gmap string (gmap string Class)) (mname oname : string)
  : option Class :=
  toolkit !! mname ≫= λ module, module !! oname.

Fixpoint has_colon (s : string) : bool :=
  match s with
  | EmptyString => false
  | String c rest => Ascii.eqb c colon || has_colon rest
  end.

End Toolkit.

(** ** [Action]  (exercised by pyface/action/tests/test_action.py) *)

Module Action.

Record ActionEvent : Type := mkActionEvent {
  when : nat                          (* time of the event *)
}.

Record Action : Type := mkAction {
  name : string;
  id : string;
  on_perform : option nat             (* the handler, by identity *)
}.

Section WithHandlers.

(** Whether calling a handler raises. *)
Variable handler_raises : nat → option Exc.

(** Modelled from the spec: [Action.perform] and [Action.destroy]
    (pyface/action/action.py is not among the sources).  Performing calls the
    handler attached as [on_perform]; an action with no attached handler
    performs a no-op without error; destroying does nothing.  The state is
    the list of handlers called so far. *)
Definition perform (self : Action) (event : ActionEvent) : M (list nat) unit :=
  match on_perform self with
  | None => mret tt
  | Some handler =>
      modify (λ called, called ++ [handler]) ;;
      match handler_raises handler with
      | Some e => raise e
      | None => mret tt
      end
  end.

Definition destroy (self : Action) : M (list nat) unit := mret tt.

End WithHandlers.

End Action.

(** ** Widget life cycle  (exercised by pyface/tests/test_single_choice_dialog.py) *)

Module Widget.

Inductive Kind : Type := Window | Dialog.

(** An abstract UI object: it owns at most one native widget handle. *)
Record Widget : Type := mkWidget {
  kind : Kind;
  control : option nat;               (* the native handle, [None] before creation *)
  parent : option nat;                (* the parent's handle, if any *)
  message : string;
  cancel : bool
}.

Definition set_control (c : option nat) (self : Widget) : Widget :=
  mkWidget (kind self) c (parent self) (message self) (cancel self).

(** The toolkit makes a native widget under a parent that is valid, or
    under no parent, and hands out a handle that is not in use.  The state
    is the set of valid handles. *)
Definition native_create (parent : option nat) : M (gset nat) nat :=
  λ valid,
    match parent with
    | Some p =>
        if decide (p ∈ valid) then (Ok (fresh valid), valid ∪ {[fresh valid]})
        else (Raise (RuntimeError 0), valid)
    | None => (Ok (fresh valid), valid ∪ {[fresh valid]})
    end.

(** Destroying is an error on a handle that is not valid. *)
Definition native_destroy (handle : nat) : M (gset nat) unit :=
  λ valid,
    if decide (handle ∈ valid) then (Ok tt, valid ∖ {[handle]})
    else (Raise (RuntimeError 1), valid).

(** Modelled from the spec: [_create] and [destroy] of windows and dialogs
    (pyface/i_widget.py, pyface/i_window.py, pyface/i_dialog.py and the
    toolkit widget classes are not among the sources).  The native widget
    handle is created on demand and destroyed explicitly; it is valid only
    between creation and destruction. *)
Definition _create (self : Widget) : M (gset nat) Widget :=
  handle ← native_create (parent self);
  mret (set_control (Some handle) self).

Definition destroy (self : Widget) : M (gset nat) Widget :=
  match control self with
  | None => mret self
  | Some handle =>
      native_destroy handle ;;
      mret (set_control None self)
  end.

End Widget.

(** ** [PythonShell.execute_file]: what the script is given and what it leaves *)

(** The namespace and the [sys] entries that the script starts with. *)
Definition script_namespace (path : string) : gmap string PythonShell.Value :=
  <["__nonzero__" := PythonShell.VLambdaTrue]>
    (<["__file__" := PythonShell.VStr (PythonShell.basename path)]> PythonShell.module_dict).

Definition script_sys (path : string) (hidden : bool) : PythonShell.Sys :=
  let target := if hidden then PythonShell.NullIO else PythonShell.Control in
  PythonShell.mkSys [PythonShell.basename path] PythonShell.FreshMain target target target.

(** The names that [execute_file] deletes from the namespace before it
    updates the interpreter. *)
Definition special_names : list string := ["__name__"; "__file__"; "__nonzero__"].

(** What the script leaves for the interpreter: its namespace less the
    special names. *)
Definition script_globals (ns : gmap string PythonShell.Value)
  : gmap string PythonShell.Value :=
  delete "__nonzero__" (delete "__file__" (delete "__name__" ns)).

(** The namespace that the script leaves behind when it runs to its end. *)
Definition script_result (load : string → Exc + PythonShell.Code) (path : string)
    (hidden : bool) : option (gmap string PythonShell.Value) :=
  match load path with
  | inl _ => None
  | inr code =>
      match code (script_sys path hidden) (script_namespace path) with
      | (Ok _, (_, ns')) => Some ns'
      | (Raise _, _) => None
      end
  end.

(** ** [PyShell.code_completion] and [PyShell.OnKeyDown]
    (pyface/ui/wx/python_shell.py) *)

Module Completion.

(** The exception of [self.autocomp_list[autocomp_index]]. *)
Inductive Raised : Type := IndexError.

(** The part of the editor control that the completion code reads and
    writes.  A position is the number of characters before it, as in the
    styled text control for ASCII text. *)
Record Editor : Type := mkEditor {
  text : list ascii;
  current_pos : Z;
  anchor : Z;
  promptPosEnd : Z;
  autocomp_active : bool;               (* [AutoCompActive()] *)
  autocomp_current : Z;                 (* [AutoCompGetCurrent()] *)
  autocomp_list : list string;
  forwarded : list Z                    (* the keys handed on to the base class *)
}.

Definition AutoCompCancel (self : Editor) : Editor :=
  mkEditor (text self) (current_pos self) (anchor self) (promptPosEnd self) false
    (autocomp_current self) (autocomp_list self) (forwarded self).

Definition GetTextRange (startPos endPos : Z) (self : Editor) : list ascii :=
  take (Z.to_nat (endPos - startPos)) (drop (Z.to_nat startPos) (text self)).

(** Where a position ends up when [lengthDelete] characters from [start]
    on are deleted. *)
Definition moved (start lengthDelete pos : Z) : Z :=
  if Z.leb (start + lengthDelete) pos then (pos - lengthDelete)%Z
  else if Z.ltb start pos then start else pos.

Definition DeleteRange (start lengthDelete : Z) (self : Editor) : Editor :=
  mkEditor
    (take (Z.to_nat start) (text self) ++ drop (Z.to_nat (start + lengthDelete)) (text self))
    (moved start lengthDelete (current_pos self)) (moved start lengthDelete (anchor self))
    (promptPosEnd self) (autocomp_active self) (autocomp_current self)
    (autocomp_list self) (forwarded self).

Definition AppendText (value : string) (self : Editor) : Editor :=
  mkEditor (text self ++ String.list_ascii_of_string value)
    (current_pos self) (anchor self) (promptPosEnd self) (autocomp_active self)
    (autocomp_current self) (autocomp_list self) (forwarded self).

Definition TextLength (self : Editor) : Z := Z.of_nat (length (text self)).

Definition SetCurrentPos (pos : Z) (self : Editor) : Editor :=
  mkEditor (text self) pos (anchor self) (promptPosEnd self) (autocomp_active self)
    (autocomp_current self) (autocomp_list self) (forwarded self).

Definition SetAnchor (pos : Z) (self : Editor) : Editor :=
  mkEditor (text self) (current_pos self) pos (promptPosEnd self) (autocomp_active self)
    (autocomp_current self) (autocomp_list self) (forwarded self).

(** [s.rfind(c)]: the index of the last [c] in [s], or [-1]. *)
Fixpoint rfind (c : ascii) (s : list ascii) : Z :=
  match s with
  | [] => (-1)%Z
  | x :: rest =>
      let i := rfind c rest in
      if Z.leb 0 i then (i + 1)%Z
      else if Ascii.eqb x c then 0%Z else (-1)%Z
  end.

(** [l[i]]: a negative index counts from the end; [None] stands for
    [IndexError]. *)
Definition getitem {A} (l : list A) (i : Z) : option A :=
  let n := Z.of_nat (length l) in
  if Z.leb 0 i then l !! Z.to_nat i
  else if Z.leb (- n) i then l !! Z.to_nat (n + i)
  else None.

Definition len (s : list ascii) : Z := Z.of_nat (length s).

Definition code_completion (self : Editor) : option Raised * Editor :=
  if autocomp_active self then
    (* get the current selection in the drop-down menu *)
    let autocomp_index := autocomp_current self in
    (* close the auto complete window *)
    let self := AutoCompCancel self in
    (* get the current position of the cursor *)
    let currpos := current_pos self in
    (* get the begin of the line (command) *)
    let stoppos := promptPosEnd self in
    (* get the command as string *)
    let command := GetTextRange stoppos currpos self in
    (* get the index of the first char after the separator. *)
    let sep_pos := (rfind "."%char command + 1)%Z in
    (* delete the text after the separator (by position and length) *)
    let self :=
      DeleteRange (currpos - len command + sep_pos) (len command - sep_pos) self in
    (* get the value that has to be added *)
    match getitem (autocomp_list self) autocomp_index with
    | None => (Some IndexError, self)
    | Some value =>
        (* Append the text *)
        let self := AppendText value self in
        (* Move cursor and anchor *)
        let self := SetCurrentPos (TextLength self) self in
        let self := SetAnchor (TextLength self) self in
        (None, self)
    end
  else (None, self).

Definition WXK_TAB : Z := 9.
Definition WXK_RETURN : Z := 13.

Section WithBase.

(** What [wx.py.shell.Shell.OnKeyDown] does to the editor. *)
Variable base_OnKeyDown : Z → Editor → Editor.

(** [super().OnKeyDown(event)] *)
Definition super_OnKeyDown (key : Z) (self : Editor) : Editor :=
  let self' := base_OnKeyDown key self in
  mkEditor (text self') (current_pos self') (anchor self') (promptPosEnd self')
    (autocomp_active self') (autocomp_current self') (autocomp_list self')
    (forwarded self ++ [key]).

Definition OnKeyDown (key : Z) (self : Editor) : option Raised * Editor :=
  if autocomp_active self then
    if bool_decide (key ∈ [WXK_TAB; WXK_RETURN]) then
      (* Stop the event here!!! *)
      code_completion self
    else
      (* Call parent function *)
      (None, super_OnKeyDown key self)
  else (None, super_OnKeyDown key self).

End WithBase.

End Completion.

(** ** [Window]  (pyface/ui/wx/window.py) *)

Module Window.

(** Calls on the native frame and on an event, and the notifications that
    the window sends. *)
Inductive Call : Type :=
| SetPosition (control : nat) (position : Z * Z)    (* [self.control.SetPosition(position)] *)
| SetSize (control : nat) (size : Z * Z)            (* [self.control.SetSize(size)] *)
| TraitPropertyChanged (name : string) (old new : Z * Z)
                                                    (* [self.trait_property_changed(...)] *)
| Activated                                         (* [self.activated = self] *)
| Deactivated                                       (* [self.deactivated = self] *)
| KeyPressed (alt_down control_down shift_down : bool) (key_code : Z)
                                                    (* [self.key_pressed = KeyPressedEvent(...)] *)
| Skip.                                             (* [event.Skip()] *)

#[global] Instance call_eq_dec : EqDecision Call.
Proof. solve_decision. Defined.

Record Window : Type := mkWindow {
  control : option nat;                 (* the native frame, [None] before creation *)
  _position : Z * Z;                    (* shadow trait for position *)
  _size : Z * Z;                        (* shadow trait for size *)
  calls : list Call
}.

Definition call (c : Call) : M Window unit :=
  modify (λ self, mkWindow (control self) (_position self) (_size self) (calls self ++ [c])).

Definition set__position (position : Z * Z) : M Window unit :=
  modify (λ self, mkWindow (control self) position (_size self) (calls self)).

Definition set__size (size : Z * Z) : M Window unit :=
  modify (λ self, mkWindow (control self) (_position self) size (calls self)).

(** [try: body except: pass] *)
Definition try_except_pass (body : M Window unit) : M Window unit :=
  λ self,
    match body self with
    | (Ok _, self') => (Ok tt, self')
    | (Raise _, self') => (Ok tt, self')
    end.

(** Property getter for position. *)
Definition _get_position : M Window (Z * Z) :=
  self ← get; mret (_position self).

(** Property setter for position. *)
Definition _set_position (position : Z * Z) : M Window unit :=
  self ← get;
  match control self with
  | Some c => call (SetPosition c position)
  | None => mret tt
  end ;;
  self ← get;
  let old := _position self in
  set__position position ;;
  call (TraitPropertyChanged "position" old position).

(** Property getter for size. *)
Definition _get_size : M Window (Z * Z) :=
  self ← get; mret (_size self).

(** Property setter for size. *)
Definition _set_size (size : Z * Z) : M Window unit :=
  self ← get;
  match control self with
  | Some c => call (SetSize c size)
  | None => mret tt
  end ;;
  self ← get;
  let old := _size self in
  set__size size ;;
  call (TraitPropertyChanged "size" old size).

(** Called when the frame is being activated or deactivated;
    [active] is [event.GetActive()]. *)
Definition _wx_on_activate (active : bool) : M Window unit :=
  (if active then call Activated else call Deactivated) ;;
  call Skip.

(** Called when the window is moved; [position] is what
    [event.GetEventObject().GetPosition().Get()] yields. *)
Definition _wx_on_control_move (position : Exc + Z * Z) : M Window unit :=
  try_except_pass
    (match position with
     | inl e => raise e
     | inr p => set__position p
     end) ;;
  call Skip.

(** Called when the window is resized; [size] is what [event.GetSize()]
    yields, as [(wxsize.GetWidth(), wxsize.GetHeight())]. *)
Definition _wx_on_control_size (size : Exc + Z * Z) : M Window unit :=
  wxsize ← (match size with
            | inl e => raise e
            | inr s => mret s
            end);
  set__size wxsize ;;
  call Skip.

(** Called when a key is pressed when the window has focus. *)
Definition _wx_on_char (alt control shift : bool) (key_code : Z) : M Window unit :=
  call (KeyPressed alt control shift key_code) ;;
  call Skip.

(** The events that [_add_event_listeners] binds to the handlers above, each
    with what the handler reads from it.  ([EVT_CLOSE] is bound to a handler
    that only calls [self.close()], which is inherited.) *)
Inductive Event : Type :=
| EVT_ACTIVATE (active : bool)
| EVT_SIZE (size : Exc + Z * Z)
| EVT_MOVE (position : Exc + Z * Z)
| EVT_CHAR (alt control shift : bool) (key_code : Z).

Definition _add_event_listeners (event : Event) : M Window unit :=
  match event with
  | EVT_ACTIVATE active => _wx_on_activate active
  | EVT_SIZE size => _wx_on_control_size size
  | EVT_MOVE position => _wx_on_control_move position
  | EVT_CHAR alt control shift key_code => _wx_on_char alt control shift key_code
  end.

(** The calls that address the native frame or announce a property. *)
Definition is_feedback (c : Call) : bool :=
  match c with
  | SetPosition _ _ | SetSize _ _ | TraitPropertyChanged _ _ _ => true
  | _ => false
  end.

End Window.

(** ** [TestObject]  (pyface/tests/test_clipboard.py) *)

Module TestClipboard.

(** The attribute values that the tests use: strings and integers. *)
Inductive Value : Type :=
| Str (s : string)
| Int (n : Z).

#[global] Instance value_eq_dec : EqDecision Value.
Proof. solve_decision. Defined.

(** A [TestObject]: its [__dict__], in insertion order. *)
Definition TestObject : Type := list (string * Value).

(** What [__eq__] can be handed. *)
Inductive Object : Type :=
| Test (other : TestObject)
| Foreign.

Fixpoint dict_get (key : string) (d : TestObject) : option Value :=
  match d with
  | [] => None
  | (k, v) :: rest => if decide (k = key) then Some v else dict_get key rest
  end.

(** [getattr(other, key)] for a key that the class does not provide: the
    instance dictionary decides. *)
Definition getattr (other : TestObject) (key : string) : Res Value :=
  match dict_get key other with
  | Some v => Ok v
  | None => Raise (AttributeError key)
  end.

(** [all(getattr(other, key) == value for key, value in items)] *)
Fixpoint all_equal (other : TestObject) (items : list (string * Value)) : Res bool :=
  match items with
  | [] => Ok true
  | (key, value) :: rest =>
      match getattr other key with
      | Raise e => Raise e
      | Ok v => if decide (v = value) then all_equal other rest else Ok false
      end
  end.

(** [__eq__]; the result [None] is Python's [None]. *)
Definition __eq__ (self : TestObject) (other : Object) : Res (option bool) :=
  match other with
  | Test other =>
      match all_equal other self with
      | Raise e => Raise e
      | Ok b => Ok (Some b)
      end
  | Foreign => Ok None
  end.

End TestClipboard.

(** * Properties *)

(** ** [PythonShell.execute_file] *)

Example basename_nested : PythonShell.basename "/home/user/run.py" = "run.py".
Proof. reflexivity. Qed.

Example basename_plain : PythonShell.basename "run.py" = "run.py".
Proof. reflexivity. Qed.

Ltac py_unfold :=
  unfold mbind, py_bind, Py.bind, Py.try_finally, Py.when, Py.modify, Py.get, Py.ret in *.

Lemma bind_returns {S A B} (c : M S A) (k : A → M S B) (s s' : S) (a : A) :
  c s = (Ok a, s') → (c ≫= k) s = k a s'.
Proof. intros Hc. unfold mbind, py_bind, Py.bind. by rewrite Hc. Qed.

(** A loop whose body always returns normally is a left fold. *)
Lemma for_each_returns {S X} (f : X → M S unit) (g : S → X → S) (xs : list X) (s : S) :
  (∀ x s, f x s = (Ok tt, g s x)) →
  for_each f xs s = (Ok tt, foldl g s xs).
Proof.
  intros Hf. revert s. induction xs as [|x xs IH]; intros s; [done|].
  cbn [for_each foldl]. unfold Py.bind. by rewrite Hf, IH.
Qed.

Lemma bind_cases {S A B} (c : M S A) (k : A → M S B) (s : S) :
  (c ≫= k) s =
    match c s with
    | (Ok a, s') => k a s'
    | (Raise e, s') => (Raise e, s')
    end.
Proof. reflexivity. Qed.

(** [execute_file] is taken apart into its suites: what each of them does to
    the state is stated once, and the properties of the whole follow. *)
Section ExecuteFile.

Import PythonShell.

Variable load : string → Exc + Code.
Variable ctl_raises : CtlCall → option Exc.

Lemma name_is_special : "__name__" ∈ special_names.
Proof. apply list_elem_of_here. Qed.

Lemma file_is_special : "__file__" ∈ special_names.
Proof. apply list_elem_of_further, list_elem_of_here. Qed.

Lemma nonzero_is_special : "__nonzero__" ∈ special_names.
Proof. do 2 apply list_elem_of_further. apply list_elem_of_here. Qed.

(** The suite after the [finally]: the first special name that is missing
    from the namespace stops it with a [KeyError], and only when it has
    deleted all three does it touch the locals. *)
Lemma update_interpreter (w : World) (r : Res unit) (w' : World) :
  (del "__name__" ;; del "__file__" ;; del "__nonzero__" ;;
   ns ← get; set_locals (λ l, prog_ns ns ∪ l)) w = (r, w') →
  sys w' = sys w ∧ ctl_log w' = ctl_log w ∧ exec_log w' = exec_log w ∧
  ((∃ k, k ∈ special_names ∧ prog_ns w !! k = None ∧
         r = Raise (KeyError k) ∧ locals w' = locals w) ∨
   (Forall (λ k, is_Some (prog_ns w !! k)) special_names ∧
    r = Ok tt ∧ locals w' = script_globals (prog_ns w) ∪ locals w)).
Proof.
  unfold script_globals. intros Hrun.
  rewrite bind_cases in Hrun. unfold del in Hrun at 1.
  destruct (prog_ns w !! "__name__") as [v1|] eqn:H1; cycle 1.
  { injection Hrun as <- <-. do 3 (split; [reflexivity|]). left. exists "__name__".
    split; [exact name_is_special|]. split; [exact H1|]. split; reflexivity. }
  unfold set_prog_ns in Hrun at 1. unfold Py.modify in Hrun at 1.
  rewrite bind_cases in Hrun. unfold del in Hrun at 1. cbn [prog_ns] in Hrun.
  destruct (delete "__name__" (prog_ns w) !! "__file__") as [v2|] eqn:H2; cycle 1.
  { injection Hrun as <- <-. do 3 (split; [reflexivity|]). left. exists "__file__".
    split; [exact file_is_special|].
    rewrite lookup_delete_ne in H2 by discriminate.
    split; [exact H2|]. split; reflexivity. }
  unfold set_prog_ns in Hrun at 1. unfold Py.modify in Hrun at 1.
  rewrite bind_cases in Hrun. unfold del in Hrun at 1. cbn [prog_ns] in Hrun.
  destruct (delete "__file__" (delete "__name__" (prog_ns w)) !! "__nonzero__")
    as [v3|] eqn:H3; cycle 1.
  { injection Hrun as <- <-. do 3 (split; [reflexivity|]). left. exists "__nonzero__".
    split; [exact nonzero_is_special|].
    do 2 rewrite lookup_delete_ne in H3 by discriminate.
    split; [exact H3|]. split; reflexivity. }
  unfold set_prog_ns in Hrun at 1. unfold Py.modify in Hrun at 1.
  injection Hrun as <- <-. do 3 (split; [reflexivity|]). right.
  rewrite lookup_delete_ne in H2 by discriminate.
  do 2 rewrite lookup_delete_ne in H3 by discriminate.
  split; [|split; reflexivity].
  unfold special_names.
  apply Forall_cons; split; [by exists v1|].
  apply Forall_cons; split; [by exists v2|].
  apply Forall_cons; split; [by exists v3|]. apply Forall_nil_2.
Qed.

(** Whether the control takes the two calls that announce the script. *)
Definition announced (path : string) : bool :=
  bool_decide (ctl_raises ClearCommand = None) &&
  bool_decide (ctl_raises (Write (executing path)) = None).

(** The calls on the control that come before the script: only the log of
    the control changes. *)
Lemma announce (path : string) (hidden : bool) (w : World) :
  ∃ rc log,
    when (negb hidden)
      (ctl ctl_raises ClearCommand ;; ctl ctl_raises (Write (executing path))) w
    = (rc, mkWorld (sys w) (locals w) (prog_ns w) log (exec_log w)) ∧
    raises rc = negb (hidden || announced path) ∧
    (hidden = true → log = ctl_log w) ∧
    (rc = Ok tt →
     log = ctl_log w ++ (if hidden then [] else [ClearCommand; Write (executing path)])).
Proof.
  unfold announced. destruct hidden; cbn [negb Py.when orb].
  - exists (Ok tt), (ctl_log w). unfold Py.ret.
    split; [by destruct w|]. split; [reflexivity|]. split; [reflexivity|].
    intros _. by rewrite app_nil_r.
  - rewrite bind_cases. unfold ctl.
    destruct (ctl_raises ClearCommand) as [e1|].
    { exists (Raise e1), (ctl_log w). split; [by destruct w|].
      split; [reflexivity|]. split; intros ?; discriminate. }
    cbn [sys locals prog_ns ctl_log exec_log].
    destruct (ctl_raises (Write _)) as [e2|].
    + eexists (Raise e2), _. split; [reflexivity|].
      split; [reflexivity|]. split; intros ?; discriminate.
    + eexists (Ok tt), _. split; [reflexivity|]. split; [reflexivity|].
      split; [intros ?; discriminate|]. intros _. by rewrite <- app_assoc.
Qed.

(** The script itself: it leaves the locals and the log of the control
    alone, and it is recorded as started when the file could be loaded. *)
Lemma exec_run (path : string) (w : World) (r : Res unit) (w' : World) :
  exec load path w = (r, w') →
  locals w' = locals w ∧ ctl_log w' = ctl_log w ∧
  exec_log w' = exec_log w ++ (if load path is inr _ then [sys w] else []) ∧
  (r = Ok tt →
   ∃ code s', load path = inr code ∧
     code (sys w) (prog_ns w) = (Ok tt, (s', prog_ns w'))).
Proof.
  unfold exec. destruct (load path) as [e|code].
  - intros [= <- <-]. do 2 (split; [reflexivity|]).
    split; [by rewrite app_nil_r|]. intros ?; discriminate.
  - destruct (code (sys w) (prog_ns w)) as [rs [s' ns']] eqn:Hcode.
    intros [= <- <-]. do 3 (split; [reflexivity|]).
    intros ->. by exists code, s'.
Qed.

(** The call on the control that comes after the script. *)
Lemma prompt_run (hidden : bool) (w : World) (r : Res unit) (w' : World) :
  when (negb hidden) (ctl ctl_raises Prompt) w = (r, w') →
  locals w' = locals w ∧ prog_ns w' = prog_ns w ∧ exec_log w' = exec_log w ∧
  (hidden = true → ctl_log w' = ctl_log w) ∧
  (r = Ok tt → ctl_log w' = ctl_log w ++ (if hidden then [] else [Prompt])).
Proof.
  destruct hidden; cbn [negb Py.when].
  - intros [= <- <-]. do 4 (split; [reflexivity|]). intros _. by rewrite app_nil_r.
  - unfold ctl. destruct (ctl_raises Prompt).
    + intros [= <- <-]. do 3 (split; [reflexivity|]). split; intros ?; discriminate.
    + intros [= <- <-]. do 3 (split; [reflexivity|]).
      split; [intros ?; discriminate|reflexivity].
Qed.

(** The guarded suite leaves the locals alone and starts the script at most
    once.  When it returns normally, the script was loaded and ran to its
    end, from the [sys] entries and the namespace it was given, and
    [execute_file] told the control to clear the command, write the
    announcement and prompt, unless the run is hidden. *)
Lemma guarded_suite (path : string) (hidden : bool) (w : World) (r : Res unit) (w' : World) :
  (when (negb hidden) (ctl ctl_raises ClearCommand ;; ctl ctl_raises (Write (executing path))) ;;
   exec load path ;;
   when (negb hidden) (ctl ctl_raises Prompt)) w = (r, w') →
  locals w' = locals w ∧
  exec_log w' = exec_log w ++
    (if script_starts load ctl_raises path hidden then [sys w] else []) ∧
  (hidden = true → ctl_log w' = ctl_log w) ∧
  (r = Ok tt →
   (∃ code s', load path = inr code ∧
      code (sys w) (prog_ns w) = (Ok tt, (s', prog_ns w'))) ∧
   ctl_log w' = ctl_log w ++
     (if hidden then [] else [ClearCommand; Write (executing path); Prompt])).
Proof.
  intros Hrun. rewrite bind_cases in Hrun.
  destruct (announce path hidden w) as (rc & log & Hpre & Hrc & Hhid & Hlog).
  rewrite Hpre in Hrun.
  assert (Hstarts : script_starts load ctl_raises path hidden
                    = if load path is inr _ then hidden || announced path else false)
    by reflexivity.
  destruct rc as [[]|e]; cycle 1.
  { injection Hrun as <- <-. cbn [locals exec_log ctl_log].
    split; [reflexivity|]. split; [|split; [exact Hhid|intros ?; discriminate]].
    rewrite Hstarts. cbn [raises] in Hrc.
    destruct (hidden || announced path); [discriminate|].
    destruct (load path); by rewrite app_nil_r. }
  cbn [raises] in Hrc. specialize (Hlog eq_refl).
  rewrite bind_cases in Hrun.
  match type of Hrun with context [exec load path ?w1] =>
    destruct (exec load path w1) as [re w2] eqn:Hexec end.
  apply exec_run in Hexec as (Hl2 & Hc2 & He2 & Hran).
  cbn [sys locals prog_ns ctl_log exec_log] in Hl2, Hc2, He2, Hran.
  assert (Hstarted : exec_log w2 = exec_log w ++
            (if script_starts load ctl_raises path hidden then [sys w] else [])).
  { rewrite He2, Hstarts. destruct (hidden || announced path); [|discriminate].
    by destruct (load path). }
  destruct re as [[]|e]; cycle 1.
  { injection Hrun as <- <-. split; [exact Hl2|]. split; [exact Hstarted|].
    split; [|intros ?; discriminate]. intros Hh. rewrite Hc2. exact (Hhid Hh). }
  apply prompt_run in Hrun as (Hl3 & Hn3 & He3 & Hh3 & Hc3).
  split; [by rewrite Hl3|]. split; [by rewrite He3|].
  split; [intros Hh; rewrite (Hh3 Hh), Hc2; exact (Hhid Hh)|].
  intros ->. split.
  - destruct (Hran eq_refl) as (code & s' & Hload & Hcode).
    exists code, s'. split; [exact Hload|]. by rewrite Hn3.
  - rewrite (Hc3 eq_refl), Hc2, Hlog. destruct hidden; by rewrite <- app_assoc.
Qed.

(** The first eight statements of [execute_file] set the stage. *)
Lemma execute_file_prelude (path : string) (hidden : bool) (w : World) :
  execute_file load ctl_raises path hidden w =
  (Py.try_finally
     (when (negb hidden)
        (ctl ctl_raises ClearCommand ;; ctl ctl_raises (Write (executing path))) ;;
      exec load path ;;
      when (negb hidden) (ctl ctl_raises Prompt))
     (set_sys (set_argv (argv (sys w))) ;;
      set_sys (set_main (main (sys w))) ;;
      set_sys (set_stdin (stdin (sys w))) ;;
      set_sys (set_stdout (stdout (sys w))) ;;
      set_sys (set_stderr (stderr (sys w)))) ;;
   del "__name__" ;; del "__file__" ;; del "__nonzero__" ;;
   ns ← get; set_locals (λ l, prog_ns ns ∪ l))
    (mkWorld (script_sys path hidden) (locals w) (script_namespace path)
       (ctl_log w) (exec_log w)).
Proof. reflexivity. Qed.

(** The [finally] suite returns, and touches [sys] only. *)
Lemma restore_sys (s : Sys) (w : World) :
  (set_sys (set_argv (argv s)) ;; set_sys (set_main (main s)) ;;
   set_sys (set_stdin (stdin s)) ;; set_sys (set_stdout (stdout s)) ;;
   set_sys (set_stderr (stderr s))) w
  = (Ok tt, mkWorld s (locals w) (prog_ns w) (ctl_log w) (exec_log w)).
Proof. by destruct s. Qed.

(** The outcome of [execute_file], by cases. *)
Lemma execute_file_outcome (path : string) (hidden : bool) (w : World)
    (r : Res unit) (w' : World) :
  execute_file load ctl_raises path hidden w = (r, w') →
  sys w' = sys w ∧
  exec_log w' = exec_log w ++
    (if script_starts load ctl_raises path hidden then [script_sys path hidden] else []) ∧
  (hidden = true → ctl_log w' = ctl_log w) ∧
  ((∃ e, r = Raise e ∧ locals w' = locals w) ∨
   (∃ ns', script_result load path hidden = Some ns' ∧
      Forall (λ k, is_Some (ns' !! k)) special_names ∧
      r = Ok tt ∧
      locals w' = script_globals ns' ∪ locals w ∧
      ctl_log w' = ctl_log w ++
        (if hidden then [] else [ClearCommand; Write (executing path); Prompt]))).
Proof.
  rewrite execute_file_prelude.
  rewrite bind_cases. unfold Py.try_finally at 1.
  match goal with |- context [match ?body ?w1 with _ => _ end] =>
    destruct (body w1) as [rb w2] eqn:Hbody end.
  apply guarded_suite in Hbody as (Hlocals & Hexec & Hhid & Hran).
  cbn [sys locals prog_ns ctl_log exec_log] in Hlocals, Hexec, Hhid, Hran.
  rewrite restore_sys.
  destruct rb as [[]|e].
  - intros Hrun. apply update_interpreter in Hrun as (Hsys & Hctl & Hex & Hrun).
    cbn [sys locals prog_ns ctl_log exec_log] in Hsys, Hctl, Hex, Hrun.
    rewrite Hlocals in Hrun.
    destruct (Hran eq_refl) as [(code & s' & Hload & Hcode) Hlog].
    assert (Hres : script_result load path hidden = Some (prog_ns w2)).
    { unfold script_result. rewrite Hload, Hcode. reflexivity. }
    split; [exact Hsys|]. split; [by rewrite Hex|].
    split; [intros Hh; rewrite Hctl; exact (Hhid Hh)|].
    destruct Hrun as [(k & Hk & Hmiss & -> & Hl) | (Hall & -> & Hl)].
    + left. exists (KeyError k). split; [reflexivity|exact Hl].
    + right. exists (prog_ns w2). split; [exact Hres|]. split; [exact Hall|].
      split; [reflexivity|]. split; [exact Hl|]. rewrite Hctl. exact Hlog.
  - intros [= <- <-]. cbn [sys locals prog_ns ctl_log exec_log].
    split; [reflexivity|]. split; [exact Hexec|].
    split; [exact Hhid|]. left. exists e. split; [reflexivity|exact Hlocals].
Qed.

(** A hidden run of a script that runs to its end: what is left to do is
    the update of the interpreter. *)
Lemma execute_file_hidden_run (path : string) (w : World) (code : Code)
    (s' : Sys) (ns' : gmap string Value) :
  load path = inr code →
  code (script_sys path true) (script_namespace path) = (Ok tt, (s', ns')) →
  execute_file load ctl_raises path true w =
  (del "__name__" ;; del "__file__" ;; del "__nonzero__" ;;
   ns ← get; set_locals (λ l, prog_ns ns ∪ l))
    (mkWorld (sys w) (locals w) ns' (ctl_log w) (exec_log w ++ [script_sys path true])).
Proof.
  intros Hload Hcode. rewrite execute_file_prelude.
  rewrite bind_cases. unfold Py.try_finally at 1.
  cbn [negb Py.when]. rewrite bind_cases. unfold Py.ret at 1.
  rewrite bind_cases. unfold exec at 1.
  cbn [sys locals prog_ns ctl_log exec_log]. rewrite Hload, Hcode.
  unfold Py.ret at 1. rewrite restore_sys. reflexivity.
Qed.

End ExecuteFile.

(** C1.  Whatever the path, the flag, the file's content and the behaviour
    of the control: after [execute_file], [sys.argv], [sys.modules['__main__']]
    and the three standard streams are what they were before the call, also
    when the call raises; and whenever the script is started, it starts with
    the three streams bound to a null object ([hidden]) or to the shell
    control (not [hidden]). *)
Theorem execute_file_redirects_and_restores
    (load : string → Exc + PythonShell.Code)
    (ctl_raises : PythonShell.CtlCall → option Exc)
    (path : string) (hidden : bool) (w : PythonShell.World) :
  let w' := (PythonShell.execute_file load ctl_raises path hidden w).2 in
  let target := if hidden then PythonShell.NullIO else PythonShell.Control in
  (PythonShell.argv (PythonShell.sys w') = PythonShell.argv (PythonShell.sys w) ∧
   PythonShell.main (PythonShell.sys w') = PythonShell.main (PythonShell.sys w) ∧
   PythonShell.stdin (PythonShell.sys w') = PythonShell.stdin (PythonShell.sys w) ∧
   PythonShell.stdout (PythonShell.sys w') = PythonShell.stdout (PythonShell.sys w) ∧
   PythonShell.stderr (PythonShell.sys w') = PythonShell.stderr (PythonShell.sys w)) ∧
  (∃ started,
     PythonShell.exec_log w' = PythonShell.exec_log w ++ started ∧
     Forall (PythonShell.redirected_to target) started ∧
     length started =
       if PythonShell.script_starts load ctl_raises path hidden then 1 else 0).
Proof.
  cbv zeta.
  destruct (PythonShell.execute_file load ctl_raises path hidden w) as [r w'] eqn:Hrun.
  apply execute_file_outcome in Hrun as (Hsys & Hexec & _). cbn [snd].
  split; [by rewrite Hsys|].
  eexists. split; [exact Hexec|].
  destruct (PythonShell.script_starts load ctl_raises path hidden).
  - split; [|reflexivity]. apply Forall_singleton.
    unfold PythonShell.redirected_to, script_sys. by destruct hidden.
  - split; [constructor|reflexivity].
Qed.

(** ** [PyShell.hidden_push] *)

Example rstrip_newline : PyShell.rstrip ("x = 1 " +:+ String PythonShell.newline EmptyString) = "x = 1".
Proof. reflexivity. Qed.

Example rstrip_inner : PyShell.rstrip " a b " = " a b".
Proof. reflexivity. Qed.






(** A shell with two handlers, used in the examples below. *)
Definition two_handlers : PyShell.Shell :=
  PyShell.mkShell false false [0; 1] ["stale"] true true true [].

Definition first_raises (h : nat) : option Exc :=
  if Nat.eqb h 0 then Some (RuntimeError 1) else None.





(** ** [PyShell.autoCompleteShow] *)

(** The filtering loop appends the candidates that start with [f], in
    order, and cannot raise. *)
Lemma for_each_filter f values sh :
  for_each (λ v, when (String.prefix f v) (PyShell.autocomp_list_append v)) values sh =
    (Ok tt,
     PyShell.mkShell (PyShell.waiting sh) (PyShell.more sh) (PyShell.handlers sh)
       (PyShell.autocomp_list sh ++ List.filter (String.prefix f) values)
       (PyShell.autoCompleteAutoHide sh) (PyShell.autoCompleteCaseInsensitive sh)
       (PyShell.autoCompleteIncludeMagic sh) (PyShell.calls sh)).
Proof.
  revert sh. induction values as [|v values IH]; intros sh; cbn.
  - unfold Py.ret. rewrite app_nil_r. by destruct sh.
  - unfold Py.bind at 1. destruct (String.prefix f v); cbn.
    + rewrite IH. cbn. by rewrite <- app_assoc.
    + apply IH.
Qed.

(** The three calls that [autoCompleteShow] always makes. *)
Definition prelude (command : string) (sh : PyShell.Shell) : list PyShell.Call :=
  [PyShell.AutoCompSetAutoHide (PyShell.autoCompleteAutoHide sh);
   PyShell.AutoCompSetIgnoreCase (PyShell.autoCompleteCaseInsensitive sh);
   PyShell.GetAutoCompleteList command (PyShell.autoCompleteIncludeMagic sh) false false].

(** C4 (as the code has it).  [autoCompleteShow] asks the interpreter for
    the candidates.  When the list it gets is not empty, [autocomp_list]
    becomes the candidates that start with the filter, in their order, if a
    non-empty filter is given, and the whole candidate list otherwise; and
    the popup is shown once, with these entries joined by spaces.  When the
    interpreter returns no candidate, [autocomp_list] keeps its previous
    value and the popup is not shown. *)
Theorem autoCompleteShow_list_and_popup
    (getAutoCompleteList : string → bool → bool → bool → list string)
    (command : string) (offset : Z) (flt : option string) (sh : PyShell.Shell) :
  let values :=
    getAutoCompleteList command (PyShell.autoCompleteIncludeMagic sh) false false in
  let out := PyShell.autoCompleteShow getAutoCompleteList command offset flt sh in
  let sh' := out.2 in
  out.1 = Ok tt ∧
  match values with
  | [] =>
      PyShell.autocomp_list sh' = PyShell.autocomp_list sh ∧
      PyShell.calls sh' = PyShell.calls sh ++ prelude command sh
  | _ :: _ =>
      PyShell.autocomp_list sh' =
        match PyShell.truthy flt with
        | Some f => List.filter (String.prefix f) values
        | None => values
        end ∧
      PyShell.calls sh' =
        PyShell.calls sh ++ prelude command sh ++
        [PyShell.AutoCompShow offset (String.concat " " (PyShell.autocomp_list sh'))]
  end.
Proof.
  unfold PyShell.autoCompleteShow, PyShell.call, PyShell.set_autocomp_list, prelude.
  unfold mbind, py_bind, Py.bind, Py.modify, Py.get. cbn -[for_each].
  destruct (getAutoCompleteList _ _ _ _) as [|v values] eqn:Hv.
  - cbn. split; [done|]. split; [done|]. by rewrite <- !app_assoc.
  - destruct (PyShell.truthy flt) as [f|]; cbn -[for_each List.filter String.prefix].
    + rewrite for_each_filter. cbn -[List.filter String.prefix].
      split; [done|]. split; [done|]. by rewrite <- !app_assoc.
    + split; [done|]. split; [done|]. by rewrite <- !app_assoc.
Qed.

Definition no_candidates (command : string) (includeMagic includeSingle includeDouble : bool)
  : list string := [].

Definition some_candidates (command : string) (includeMagic includeSingle includeDouble : bool)
  : list string := ["append"; "count"; "copy"; "clear"].

Example autoCompleteShow_filtered :
  let sh' := (PyShell.autoCompleteShow some_candidates "l." 0 (Some "c") two_handlers).2 in
  PyShell.autocomp_list sh' = ["count"; "copy"; "clear"] ∧
  last (PyShell.calls sh') = Some (PyShell.AutoCompShow 0 "count copy clear").
Proof. split; reflexivity. Qed.

(** C4 (as stated) fails: no filter is given, the interpreter returns the
    empty candidate list, and [autocomp_list] is not that list but the one
    left by an earlier completion. *)
Lemma autoCompleteShow_keeps_stale_list :
  let sh' := (PyShell.autoCompleteShow no_candidates "l." 0 None two_handlers).2 in
  PyShell.autocomp_list sh' = ["stale"] ∧
  PyShell.autocomp_list sh' ≠ no_candidates "l." true false false ∧
  PyShell.autocomp_list
    (PyShell.autoCompleteShow no_candidates "l." 0 (Some "s") two_handlers).2
    ≠ List.filter (String.prefix "s") (no_candidates "l." true false false).
Proof. cbv zeta. split; [reflexivity|]. split; discriminate. Qed.

(** ** [GuiTestAssistant.event_loop_until_traits_change] *)

Lemma filter_keeps_all {A} (P : A → Prop) `{!∀ x, Decision (P x)} (l : list A) :
  Forall P l → filter P l = l.
Proof.
  induction 1 as [|x l Hx _ IH]; [done|]. by rewrite filter_cons_True, IH.
Qed.

Lemma filter_drops_all {A} (P : A → Prop) `{!∀ x, Decision (P x)} (l : list A) :
  Forall (λ x, ¬ P x) l → filter P l = [].
Proof.
  induction 1 as [|x l Hx _ IH]; [done|]. by rewrite filter_cons_False.
Qed.

Section Listening.

Import GuiTestAssistant.

Variable traits : gset string.

Lemma install_handlers l s :
  for_each (λ trait, on_trait_change (SetEvent trait) trait) l s =
    (Ok tt, mkState (registry s ++ installed l) (recorded_changes s) (condition s) (waited s)).
Proof.
  revert s. induction l as [|t l IH]; intros s; cbn.
  - unfold Py.ret. rewrite app_nil_r. by destruct s.
  - unfold Py.bind, on_trait_change at 1, Py.modify. rewrite IH. cbn.
    by rewrite <- app_assoc.
Qed.

Lemma remove_handlers l s :
  for_each (λ trait, on_trait_change_remove (SetEvent trait) trait) l s =
    (Ok tt, mkState (filter (λ p, p ∉ installed l) (registry s))
              (recorded_changes s) (condition s) (waited s)).
Proof.
  revert s. induction l as [|t l IH]; intros s; cbn.
  - unfold Py.ret. f_equal. destruct s as [reg ? ? ?]; cbn. f_equal.
    symmetry. apply filter_keeps_all, Forall_forall. intros p _. apply not_elem_of_nil.
  - unfold Py.bind, on_trait_change_remove at 1, Py.modify. rewrite IH. cbn.
    f_equal. f_equal. rewrite list_filter_filter. apply list_filter_iff.
    intros p. rewrite not_elem_of_cons. tauto.
Qed.

Lemma remove_installed reg l :
  Forall (λ p, is_foreign p.2) reg →
  filter (λ p, p ∉ installed l) (reg ++ installed l) = reg.
Proof.
  intros Hreg. rewrite filter_app.
  rewrite (filter_keeps_all _ reg), (filter_drops_all _ (installed l)).
  - apply app_nil_r.
  - apply Forall_forall. intros p Hp Hn. by apply Hn.
  - eapply Forall_impl; [exact Hreg|]. intros p Hp Hin.
    apply list_elem_of_fmap in Hin as [t [-> _]]. done.
Qed.

(** *** What a notification does while the handlers are installed *)

Definition dispatch (name : string) (acc : State) (p : string * Handler) : State :=
  if decide (p.1 = name) then call_handler traits p.2 acc else acc.

Lemma notify_dispatch s name : notify traits s name = foldl (dispatch name) s (registry s).
Proof. reflexivity. Qed.

Lemma dispatch_foreign name reg acc :
  Forall (λ p, is_foreign p.2) reg → foldl (dispatch name) acc reg = acc.
Proof.
  intros Hreg. revert acc. induction Hreg as [|[t h] reg Hh _ IH]; intros acc; [done|].
  cbn [foldl]. rewrite <- (IH acc) at 2. f_equal.
  unfold dispatch. case_decide; [|done]. by destruct h.
Qed.

Lemma dispatch_absent name l acc :
  name ∉ l → foldl (dispatch name) acc (installed l) = acc.
Proof.
  revert acc. induction l as [|t l IH]; intros acc Hn; [done|].
  apply not_elem_of_cons in Hn as [Hne Hn]. cbn [installed map foldl].
  unfold dispatch at 2. cbn. rewrite decide_False by done. by apply IH.
Qed.

Lemma dispatch_installed name l acc :
  NoDup l →
  foldl (dispatch name) acc (installed l) =
    if decide (name ∈ l) then set_event traits name acc else acc.
Proof.
  intros Hl. revert acc. induction Hl as [|t l Ht _ IH]; intros acc.
  - cbn. by rewrite decide_False by apply not_elem_of_nil.
  - cbn [installed map foldl]. unfold dispatch at 2. cbn.
    destruct (decide (t = name)) as [->|Hne].
    + rewrite decide_True by left. by apply dispatch_absent.
    + fold (installed l). rewrite IH.
      destruct (decide (name ∈ l)) as [Hin|Hin].
      * rewrite decide_True; [done|]. by right.
      * rewrite decide_False; [done|]. rewrite not_elem_of_cons. naive_solver.
Qed.

(** The state has the handlers of this call installed after the foreign
    registrations [reg]. *)
Definition listening (reg : list (string * Handler)) (s : State) : Prop :=
  Forall (λ p, is_foreign p.2) reg ∧ registry s = reg ++ installed (elements traits).

Lemma notify_listening reg s name :
  listening reg s →
  notify traits s name = if decide (name ∈ traits) then set_event traits name s else s.
Proof.
  intros [Hreg Hs]. rewrite notify_dispatch, Hs, foldl_app.
  rewrite (dispatch_foreign name reg) by exact Hreg.
  rewrite dispatch_installed by apply NoDup_elements.
  destruct (decide (name ∈ traits)) as [Hin|Hin].
  - rewrite decide_True; [done|]. by apply elem_of_elements.
  - rewrite decide_False; [done|]. by rewrite elem_of_elements.
Qed.

Lemma notify_keeps_listening reg s name :
  listening reg s → listening reg (notify traits s name).
Proof.
  intros Hl. rewrite (notify_listening reg) by done. by case_decide.
Qed.

Lemma notify_all_keeps_listening reg s evs :
  listening reg s → listening reg (foldl (notify traits) s evs).
Proof.
  revert s. induction evs as [|ev evs IH]; intros s Hl; [done|].
  cbn. by apply IH, notify_keeps_listening.
Qed.

(** The [condition] is set exactly when [recorded_changes] has become
    [traits]; [recorded_changes] never leaves [traits]. *)
Definition consistent (s : State) : Prop :=
  recorded_changes s ⊆ traits ∧ (condition s = true ↔ recorded_changes s = traits).

Lemma notify_consistent reg s name :
  listening reg s → consistent s → consistent (notify traits s name).
Proof.
  intros Hl [Hsub Hc]. rewrite (notify_listening reg) by done.
  case_decide as Hin; [|done]. unfold set_event, consistent; cbn. split; [set_solver|].
  case_decide as Heq; [done|]. split; [|done].
  intros Hcond. apply Hc in Hcond. set_solver.
Qed.

Lemma notify_recorded reg s name :
  listening reg s →
  recorded_changes (notify traits s name) =
    recorded_changes s ∪ (if decide (name ∈ traits) then {[name]} else ∅).
Proof.
  intros Hl. rewrite (notify_listening reg) by done.
  case_decide; cbn; [done|]. set_solver.
Qed.

Lemma notify_all reg s evs :
  listening reg s → consistent s →
  consistent (foldl (notify traits) s evs) ∧
  recorded_changes (foldl (notify traits) s evs) =
    recorded_changes s ∪ (traits ∩ list_to_set evs).
Proof.
  revert s. induction evs as [|ev evs IH]; intros s Hl Hc.
  - cbn. split; [done|]. set_solver.
  - cbn [foldl]. destruct (IH (notify traits s ev)) as [Hc' Hr].
    { by apply notify_keeps_listening. }
    { by eapply notify_consistent. }
    split; [done|]. rewrite Hr, (notify_recorded reg) by done.
    case_decide; set_solver.
Qed.

(** *** The state in which the block starts *)

Lemma listen_state s :
  listen traits s =
    (Ok tt, mkState (registry s ++ installed (elements traits)) ∅
              (bool_decide (traits = ∅)) (waited s)).
Proof.
  unfold listen. py_unfold. cbn -[for_each].
  destruct (bool_decide (traits = ∅)); cbn -[for_each]; by rewrite install_handlers.
Qed.

Lemma listen_listening s :
  Forall (λ p, is_foreign p.2) (registry s) →
  listening (registry s) (listen traits s).2 ∧ consistent (listen traits s).2 ∧
  recorded_changes (listen traits s).2 = ∅.
Proof.
  intros Hreg. rewrite listen_state. cbn. split; [by split|]. split; [|done].
  split; cbn; [set_solver|]. rewrite bool_decide_eq_true. naive_solver.
Qed.

(** *** The event loop *)

Lemma dispatch_tick name reg s :
  foldl (dispatch name) (tick s) reg = tick (foldl (dispatch name) s reg).
Proof.
  revert s. induction reg as [|[t h] reg IH]; intros s; [done|].
  cbn [foldl]. rewrite <- IH. f_equal.
  unfold dispatch. case_decide; [|done]. by destruct h.
Qed.

Lemma dispatch_registry name reg s :
  registry (foldl (dispatch name) s reg) = registry s.
Proof.
  revert s. induction reg as [|[t h] reg IH]; intros s; [done|].
  cbn [foldl]. rewrite IH. unfold dispatch. case_decide; [|done]. by destruct h.
Qed.

Lemma tick_notify s name : notify traits (tick s) name = tick (notify traits s name).
Proof. rewrite !notify_dispatch. apply dispatch_tick. Qed.

Lemma notify_registry s name : registry (notify traits s name) = registry s.
Proof. rewrite notify_dispatch. apply dispatch_registry. Qed.

Lemma notify_all_registry s evs :
  registry (foldl (notify traits) s evs) = registry s.
Proof.
  revert s. induction evs as [|ev evs IH]; intros s; [done|].
  cbn [foldl]. by rewrite IH, notify_registry.
Qed.

Lemma helper_registry timeout pending s :
  registry (helper_event_loop_until_condition traits timeout pending s).2 = registry s.
Proof.
  revert pending s. induction timeout as [|timeout IH]; intros pending s; cbn.
  - by destruct (condition s).
  - destruct (condition s); [done|]. rewrite IH. cbn.
    destruct pending as [|name pending]; [done|]. apply notify_registry.
Qed.

(** With the condition already set, the loop returns at once: no turn is
    spent, whatever the timeout. *)
Lemma helper_condition_set timeout pending s :
  condition s = true →
  helper_event_loop_until_condition traits timeout pending s = (Ok tt, s).
Proof. intros Hc. destruct timeout; cbn; by rewrite Hc. Qed.

Lemma tick_notify_all s evs :
  foldl (notify traits) (tick s) evs = tick (foldl (notify traits) s evs).
Proof.
  revert s. induction evs as [|ev evs IH]; intros s; [done|].
  cbn [foldl]. by rewrite tick_notify, IH.
Qed.

(** The loop returns normally exactly when the condition gets set within
    [timeout] turns, that is after some prefix of at most [timeout] pending
    notifications. *)
Lemma helper_returns timeout pending s :
  (helper_event_loop_until_condition traits timeout pending s).1 = Ok tt ↔
  ∃ k : nat, (k ≤ timeout)%nat ∧ condition (foldl (notify traits) s (take k pending)) = true.
Proof.
  revert pending s. induction timeout as [|timeout IH]; intros pending s; cbn.
  - destruct (condition s) eqn:Hc; cbn.
    + split; [|done]. intros _. exists 0. by rewrite take_0.
    + split; [done|]. intros (k & Hk & Hcond).
      assert (k = 0) as -> by lia. rewrite take_0 in Hcond. cbn in Hcond. congruence.
  - destruct (condition s) eqn:Hc; cbn.
    + split; [|done]. intros _. exists 0. split; [lia|]. by rewrite take_0.
    + rewrite IH. split.
      * intros (k & Hk & Hcond). exists (S k). split; [lia|].
        rewrite tick_notify_all in Hcond. cbn in Hcond.
        destruct pending as [|name pending]; cbn in *; [|done].
        rewrite take_nil in Hcond. cbn in Hcond. congruence.
      * intros (k & Hk & Hcond). destruct k as [|k].
        { rewrite take_0 in Hcond. cbn in Hcond. congruence. }
        exists k. split; [lia|]. rewrite tick_notify_all. cbn.
        destruct pending as [|name pending]; cbn in *; [|done].
        congruence.
Qed.

Lemma helper_raises timeout pending s :
  (helper_event_loop_until_condition traits timeout pending s).1 = Ok tt ∨
  (helper_event_loop_until_condition traits timeout pending s).1 = Raise ConditionTimeoutError.
Proof.
  revert pending s. induction timeout as [|timeout IH]; intros pending s; cbn.
  - destruct (condition s); auto.
  - destruct (condition s); auto.
Qed.

Lemma dispatch_waited name reg s :
  waited (foldl (dispatch name) s reg) = waited s.
Proof.
  revert s. induction reg as [|[t h] reg IH]; intros s; [done|].
  cbn [foldl]. rewrite IH. unfold dispatch. case_decide; [|done]. by destruct h.
Qed.

Lemma notify_all_waited s evs :
  waited (foldl (notify traits) s evs) = waited s.
Proof.
  revert s. induction evs as [|ev evs IH]; intros s; [done|].
  cbn [foldl]. rewrite IH, notify_dispatch. apply dispatch_waited.
Qed.

End Listening.

Lemma condition_after_events (traits : gset string) (s : GuiTestAssistant.State)
    (evs : list string) :
  Forall (λ p, GuiTestAssistant.is_foreign p.2) (GuiTestAssistant.registry s) →
  GuiTestAssistant.condition
    (foldl (GuiTestAssistant.notify traits) (GuiTestAssistant.listen traits s).2 evs) = true
  ↔ ∀ t, t ∈ traits → t ∈ evs.
Proof.
  intros Hreg.
  destruct (listen_listening traits s Hreg) as (Hl & Hc & Hrec).
  destruct (notify_all traits _ _ evs Hl Hc) as [[Hsub Hcond] Hr].
  rewrite Hcond, Hr, Hrec. split.
  - intros Heq t Ht. assert (t ∈ traits ∩ list_to_set (C:=gset string) evs) as Hin by set_solver.
    apply elem_of_intersection in Hin as [_ Hin]. by apply elem_of_list_to_set in Hin.
  - intros Hall. apply set_eq. intros t. rewrite elem_of_union, elem_of_intersection.
    rewrite elem_of_list_to_set. split; [set_solver|]. intros Ht. right. split; [done|].
    by apply Hall.
Qed.

(** What the whole call returns and leaves behind, in terms of the state
    [start] in which the block starts. *)
Lemma event_loop_until_traits_change_run (traits : gset string) (timeout : nat)
    (pending : list string) (b : GuiTestAssistant.Block) (s : GuiTestAssistant.State) :
  let start := (GuiTestAssistant.listen traits s).2 in
  let after_block := foldl (GuiTestAssistant.notify traits) start (GuiTestAssistant.fired b) in
  let loop :=
    GuiTestAssistant.helper_event_loop_until_condition traits timeout pending after_block in
  let out := GuiTestAssistant.event_loop_until_traits_change traits timeout pending b s in
  GuiTestAssistant.registry out.2 =
    filter (λ p, p ∉ GuiTestAssistant.installed (elements traits))
      (GuiTestAssistant.registry s ++ GuiTestAssistant.installed (elements traits)) ∧
  match GuiTestAssistant.outcome b with
  | Some e =>
      out.1 = Raise (match e with ConditionTimeoutError => AssertionError | _ => e end)
  | None =>
      out.1 = match loop.1 with Ok _ => Ok tt | Raise _ => Raise AssertionError end ∧
      GuiTestAssistant.waited out.2 = GuiTestAssistant.waited loop.2
  end.
Proof.
  cbv zeta. unfold GuiTestAssistant.event_loop_until_traits_change.
  unfold mbind, py_bind, Py.bind. rewrite listen_state.
  unfold Py.try_finally, GuiTestAssistant.event_loop_until_condition,
    GuiTestAssistant.run_block, GuiTestAssistant.fail, Py.raise.
  unfold mbind, py_bind, Py.bind. cbn [fst snd].
  set (start := GuiTestAssistant.mkState _ _ _ _).
  set (after_block := foldl _ start _).
  assert (Hreg : GuiTestAssistant.registry after_block =
                 GuiTestAssistant.registry s ++ GuiTestAssistant.installed (elements traits)).
  { unfold after_block. by rewrite notify_all_registry. }
  destruct (GuiTestAssistant.outcome b) as [e|].
  - destruct e; rewrite remove_handlers; cbn; rewrite Hreg; done.
  - pose proof (helper_registry traits timeout pending after_block) as Hreg'.
    destruct (helper_raises traits timeout pending after_block) as [Hr|Hr];
      destruct (GuiTestAssistant.helper_event_loop_until_condition _ _ _ _) as [r s2];
      cbn in Hr, Hreg'; subst r; rewrite remove_handlers; cbn; rewrite Hreg', Hreg; done.
Qed.

(** C9.  [event_loop_until_traits_change], called on an object whose
    registered handlers are those of other code:
    - with no trait name, the condition is set before the event loop is
      entered, and a block that returns completes without a single turn of
      waiting, whatever the timeout;
    - in general, after any sequence of notifications delivered while the
      handlers are installed, the condition is set exactly when every listed
      trait has been notified, and the call returns normally exactly when the
      block returns and that happens within the timeout;
    - afterwards the handlers of the call are gone and the registrations
      are what they were, also when the block raises or the wait times
      out. *)
Theorem event_loop_until_traits_change_spec
    (traits : gset string) (timeout : nat) (pending : list string)
    (b : GuiTestAssistant.Block) (s : GuiTestAssistant.State) :
  Forall (λ p, GuiTestAssistant.is_foreign p.2) (GuiTestAssistant.registry s) →
  let start := (GuiTestAssistant.listen traits s).2 in
  let out := GuiTestAssistant.event_loop_until_traits_change traits timeout pending b s in
  (traits = ∅ →
     GuiTestAssistant.condition start = true ∧
     (GuiTestAssistant.outcome b = None →
        out.1 = Ok tt ∧ GuiTestAssistant.waited out.2 = GuiTestAssistant.waited s)) ∧
  (∀ evs,
     GuiTestAssistant.condition (foldl (GuiTestAssistant.notify traits) start evs) = true
     ↔ ∀ t, t ∈ traits → t ∈ evs) ∧
  (out.1 = Ok tt ↔
     GuiTestAssistant.outcome b = None ∧
     ∃ k : nat, (k ≤ timeout)%nat ∧
       ∀ t, t ∈ traits → t ∈ GuiTestAssistant.fired b ++ take k pending) ∧
  GuiTestAssistant.registry out.2 = GuiTestAssistant.registry s.
Proof.
  intros Hreg start out.
  pose proof (event_loop_until_traits_change_run traits timeout pending b s) as Hrun.
  cbv zeta in Hrun. fold start out in Hrun. destruct Hrun as [Hregistry Hout].
  assert (Hcond : ∀ evs,
    GuiTestAssistant.condition (foldl (GuiTestAssistant.notify traits) start evs) = true
    ↔ ∀ t, t ∈ traits → t ∈ evs).
  { intros evs. by apply condition_after_events. }
  split; [|split; [exact Hcond|split]].
  - intros ->. split.
    + apply (Hcond []). set_solver.
    + intros Hb. rewrite Hb in Hout. destruct Hout as [Hres Hwait].
      assert (Hset : GuiTestAssistant.condition
                (foldl (GuiTestAssistant.notify ∅) start (GuiTestAssistant.fired b)) = true).
      { apply Hcond. set_solver. }
      rewrite (helper_condition_set _ _ _ _ Hset) in Hres, Hwait.
      split; [exact Hres|]. rewrite Hwait. cbn [snd]. rewrite notify_all_waited.
      unfold start. by rewrite listen_state.
  - destruct (GuiTestAssistant.outcome b) as [e|].
    + rewrite Hout. split; [done|]. by intros [? _].
    + destruct Hout as [Hres _]. rewrite Hres.
      pose proof (helper_returns traits timeout pending
                    (foldl (GuiTestAssistant.notify traits) start (GuiTestAssistant.fired b)))
        as Hret.
      destruct (GuiTestAssistant.helper_event_loop_until_condition _ _ _ _).1 as [[]|e] eqn:Hl.
      * split; [|done]. intros _. split; [done|].
        destruct (proj1 Hret eq_refl) as (k & Hk & Hc).
        exists k. split; [done|]. rewrite <- foldl_app in Hc. by apply Hcond.
      * split; [done|]. intros [_ (k & Hk & Hall)].
        assert (Raise e = Ok tt) as Habs; [|done].
        apply Hret. exists k. split; [done|]. rewrite <- foldl_app. by apply Hcond.
  - rewrite Hregistry. by apply remove_installed.
Qed.

(** An object with one handler of other code, and a block that fires
    [name] and raises. *)
Definition observed_object : GuiTestAssistant.State :=
  GuiTestAssistant.mkState [("name", GuiTestAssistant.Foreign 0)] ∅ false 0.

Definition raising_block : GuiTestAssistant.Block :=
  GuiTestAssistant.mkBlock ["name"] (Some (RuntimeError 7)).

Lemma event_loop_until_traits_change_spec_witness :
  let out :=
    GuiTestAssistant.event_loop_until_traits_change {["name"; "value"]} 5 ["value"]
      raising_block observed_object in
  GuiTestAssistant.registry out.2 = GuiTestAssistant.registry observed_object.
Proof.
  apply (event_loop_until_traits_change_spec {["name"; "value"]} 5 ["value"]
           raising_block observed_object).
  repeat constructor.
Defined.

Example event_loop_until_traits_change_timeout :
  (GuiTestAssistant.event_loop_until_traits_change {["name"; "value"]} 3 ["name"; "other"]
     (GuiTestAssistant.mkBlock [] None) observed_object).1 = Raise AssertionError.
Proof. vm_compute. reflexivity. Qed.

Example event_loop_until_traits_change_two_turns :
  let out :=
    GuiTestAssistant.event_loop_until_traits_change {["name"; "value"]} 3 ["value"; "name"]
      (GuiTestAssistant.mkBlock [] None) observed_object in
  out.1 = Ok tt ∧ GuiTestAssistant.waited out.2 = 2.
Proof. vm_compute. split; reflexivity. Qed.

(** ** [MenuBarManager.create_menu_bar] *)

Section MenuBar.

Import MenuBarManager.

Variable qt_menuBar : Parent → list Call → nat.
Variable qt_QMenuBar : Parent → list Call → nat.
Variable item_create_menu : MenuManager → Parent → option nat → list Call → nat.
Variable platform : string.

Lemma item_calls_app bar parent ctrl its1 its2 log1 log2 :
  item_calls bar parent ctrl its1 log1 →
  item_calls bar parent ctrl its2 log2 →
  item_calls bar parent ctrl (its1 ++ its2) (log1 ++ log2).
Proof.
  induction 1 as [|item menu its log _ IH]; intros H2; [done|].
  cbn. constructor. by apply IH.
Qed.

(** What one turn of the inner loop appends to the log. *)
Definition item_step (bar : nat) (parent : Parent) (ctrl : option nat)
    (log : list Call) (item : MenuManager) : list Call :=
  let menu := item_create_menu item parent ctrl log in
  log ++ [CreateMenu item parent ctrl menu; SetText menu (name item); AddMenu bar menu].

Lemma item_steps_calls bar parent ctrl its log :
  ∃ new, foldl (item_step bar parent ctrl) log its = log ++ new ∧
         item_calls bar parent ctrl its new.
Proof.
  revert log. induction its as [|item its IH]; intros log.
  - exists []. rewrite app_nil_r. split; [done|constructor].
  - cbn [foldl]. destruct (IH (item_step bar parent ctrl log item)) as (new & Hrun & Hcalls).
    rewrite Hrun. unfold item_step. eexists. split.
    + rewrite <- app_assoc. cbn. reflexivity.
    + by constructor.
Qed.

Lemma items_loop bar parent ctrl its log :
  ∃ new,
    for_each (λ item,
      menu ← create_menu item_create_menu item parent ctrl;
      call (SetText menu (name item)) ;; call (AddMenu bar menu)) its log
    = (Ok tt, log ++ new) ∧
    item_calls bar parent ctrl its new.
Proof.
  destruct (item_steps_calls bar parent ctrl its log) as (new & Hrun & Hcalls).
  exists new. split; [|done]. rewrite <- Hrun.
  apply for_each_returns. intros item l.
  unfold create_menu, call, item_step.
  unfold mbind, py_bind, Py.bind, Py.get, Py.modify, mret, py_ret, Py.ret. cbn.
  by rewrite <- !app_assoc.
Qed.

Lemma groups_loop bar parent ctrl gs log :
  ∃ new,
    for_each (λ group,
      for_each (λ item,
        menu ← create_menu item_create_menu item parent ctrl;
        call (SetText menu (name item)) ;; call (AddMenu bar menu)) (items group)) gs log
    = (Ok tt, log ++ new) ∧
    item_calls bar parent ctrl (concat (map items gs)) new.
Proof.
  revert log. induction gs as [|g gs IH]; intros log.
  - exists []. cbn. unfold Py.ret. rewrite app_nil_r. split; [done|constructor].
  - cbn [for_each map concat]. unfold Py.bind at 1.
    destruct (items_loop bar parent ctrl (items g) log) as (new1 & Hrun1 & Hcalls1).
    rewrite Hrun1.
    destruct (IH (log ++ new1)) as (new2 & Hrun2 & Hcalls2).
    rewrite Hrun2. exists (new1 ++ new2). split.
    + by rewrite <- app_assoc.
    + by apply item_calls_app.
Qed.

End MenuBar.

(** C6 (as the code has it).  [create_menu_bar] returns a menu bar [bar]
    after these calls and no others: first the calls that yield the bar,
    which are [parent.menuBar()], [setParent(None)] on the bar so obtained
    and [parent.menuBar()] again when the parent is a [QMainWindow] on darwin
    (no [QMenuBar] is constructed, and [bar] is what the second call
    returns, whether or not that is the bar of the first call), and the
    construction of a [QMenuBar] otherwise; then, for every item of every
    group in declaration order, one [create_menu], [setText] of that menu's
    action to the item's name, and [addMenu] of that menu to [bar].  The
    controller handed to [create_menu] is the argument when one is given and
    the manager's trait otherwise. *)
Theorem create_menu_bar_calls
    (qt_menuBar qt_QMenuBar : MenuBarManager.Parent → list MenuBarManager.Call → nat)
    (item_create_menu : MenuBarManager.MenuManager → MenuBarManager.Parent → option nat →
                        list MenuBarManager.Call → nat)
    (platform : string) (self : MenuBarManager.Manager) (parent : MenuBarManager.Parent)
    (controller : option nat) (log : list MenuBarManager.Call) :
  let effective :=
    match controller with
    | Some c => Some c
    | None => MenuBarManager.controller self
    end in
  ∃ bar setup menus,
    MenuBarManager.create_menu_bar qt_menuBar qt_QMenuBar item_create_menu platform
      self parent controller log = (Ok bar, log ++ setup ++ menus) ∧
    MenuBarManager.item_calls bar parent effective (MenuBarManager.all_items self) menus ∧
    (if MenuBarManager.is_main_window parent && bool_decide (platform = "darwin")
     then ∃ old, setup = [MenuBarManager.MenuBar parent old;
                          MenuBarManager.SetParentNone old;
                          MenuBarManager.MenuBar parent bar]
     else setup = [MenuBarManager.NewQMenuBar parent bar]).
Proof.
  cbv zeta. unfold MenuBarManager.create_menu_bar, MenuBarManager.all_items.
  set (effective := match controller with Some c => Some c | None => _ end).
  replace (match controller with None => MenuBarManager.controller self | Some c => Some c end)
    with effective by (by destruct controller).
  destruct (MenuBarManager.is_main_window parent && bool_decide (platform = "darwin")).
  - set (old := qt_menuBar parent log).
    set (bar := qt_menuBar parent
                  (log ++ [MenuBarManager.MenuBar parent old; MenuBarManager.SetParentNone old])).
    destruct (groups_loop item_create_menu bar parent effective (MenuBarManager.groups self)
                (log ++ [MenuBarManager.MenuBar parent old; MenuBarManager.SetParentNone old;
                         MenuBarManager.MenuBar parent bar]))
      as (menus & Hrun & Hcalls).
    exists bar, [MenuBarManager.MenuBar parent old; MenuBarManager.SetParentNone old;
                 MenuBarManager.MenuBar parent bar], menus.
    split; [|split; [exact Hcalls|by exists old]].
    erewrite bind_returns; cycle 1.
    { unfold MenuBarManager.menuBar, MenuBarManager.call.
      unfold mbind, py_bind, Py.bind, Py.get, Py.modify, mret, py_ret, Py.ret. cbn.
      rewrite <- !app_assoc. cbn. reflexivity. }
    erewrite bind_returns by exact Hrun. by rewrite <- app_assoc.
  - set (bar := qt_QMenuBar parent log).
    destruct (groups_loop item_create_menu bar parent effective (MenuBarManager.groups self)
                (log ++ [MenuBarManager.NewQMenuBar parent bar]))
      as (menus & Hrun & Hcalls).
    exists bar, [MenuBarManager.NewQMenuBar parent bar], menus.
    split; [|split; [exact Hcalls|done]].
    erewrite bind_returns; cycle 1.
    { unfold MenuBarManager.QMenuBar, MenuBarManager.call.
      unfold mbind, py_bind, Py.bind, Py.get, Py.modify, mret, py_ret, Py.ret. cbn.
      reflexivity. }
    erewrite bind_returns by exact Hrun. by rewrite <- app_assoc.
Qed.

(** A main window as Qt documents [QMainWindow.menuBar()]: the call returns
    the menu bar of the window and creates one when the window has none; a
    bar that was given another parent is no longer the window's.  New
    objects are numbered by the length of the log at their creation. *)
Definition window_bar (log : list MenuBarManager.Call) : option nat :=
  foldl (λ bar c,
           match c with
           | MenuBarManager.MenuBar _ b => Some b
           | MenuBarManager.SetParentNone b => if decide (bar = Some b) then None else bar
           | _ => bar
           end) None log.

Definition window_menuBar (parent : MenuBarManager.Parent) (log : list MenuBarManager.Call)
  : nat :=
  default (length log) (window_bar log).

Definition new_QMenuBar (parent : MenuBarManager.Parent) (log : list MenuBarManager.Call)
  : nat :=
  length log.

Definition new_menu (item : MenuBarManager.MenuManager) (parent : MenuBarManager.Parent)
    (controller : option nat) (log : list MenuBarManager.Call) : nat :=
  length log.

(** A manager with the single menu [File]. *)
Definition file_menu : MenuBarManager.Manager :=
  MenuBarManager.mkManager
    [MenuBarManager.mkGroup [MenuBarManager.mkMenuManager "File" 0]] None.

(** C6 (as stated) fails: on darwin, with a main window as parent that
    has a menu bar (bar [0], as an earlier [menuBar()] shows), that bar is
    reparented and not reused.  The second [parent.menuBar()] finds the
    window without a bar and yields a new one (bar [3]); the menu is added to
    that one, and that one is returned. *)
Lemma create_menu_bar_takes_second_bar :
  let window := MenuBarManager.QMainWindow 0 in
  let file := MenuBarManager.mkMenuManager "File" 0 in
  window_bar [MenuBarManager.MenuBar window 0] = Some 0 ∧
  MenuBarManager.create_menu_bar window_menuBar new_QMenuBar new_menu "darwin"
    file_menu window None [MenuBarManager.MenuBar window 0]
  = (Ok 3,
     [MenuBarManager.MenuBar window 0;
      MenuBarManager.MenuBar window 0; MenuBarManager.SetParentNone 0;
      MenuBarManager.MenuBar window 3;
      MenuBarManager.CreateMenu file window None 4; MenuBarManager.SetText 4 "File";
      MenuBarManager.AddMenu 3 4]) ∧
  0 ≠ 3.
Proof.
  cbv zeta. split; [reflexivity|]. split; [vm_compute; reflexivity|discriminate].
Qed.

(** ** [SingleChoiceDialog._choice_strings] *)

Lemma remove_dups_length_le {A} `{EqDecision A} (l : list A) :
  (length (remove_dups l) ≤ length l)%nat.
Proof.
  induction l as [|x l IH]; cbn; [done|]. destruct (decide_rel _ _ _); cbn; lia.
Qed.

Lemma remove_dups_same_length {A} `{EqDecision A} (l : list A) :
  length l = length (remove_dups l) ↔ NoDup l.
Proof.
  induction l as [|x l IH]; cbn.
  - split; [constructor|done].
  - pose proof (remove_dups_length_le l). destruct (decide_rel _ _ _) as [Hin|Hin]; cbn.
    + split; [lia|]. intros Hnd. apply NoDup_cons in Hnd as [? _]. done.
    + rewrite NoDup_cons. split.
      * intros Hlen. split; [done|]. apply IH. lia.
      * intros [_ Hnd]. f_equal. by apply IH.
Qed.

Lemma choice_string_getattr name c :
  name ≠ EmptyString →
  SingleChoiceDialog.choice_string name c =
    match SingleChoiceDialog.getattr c name with
    | Ok a => Some (SingleChoiceDialog.str a)
    | Raise _ => None
    end.
Proof.
  intros Hname. unfold SingleChoiceDialog.choice_string, SingleChoiceDialog.getattr.
  rewrite decide_False by done. destruct c as [s|n|repr attrs]; try done.
  by destruct (SingleChoiceDialog.lookup_attr name attrs).
Qed.

Lemma comprehension_getattr name cs :
  name ≠ EmptyString →
  match SingleChoiceDialog.comprehension (λ obj, SingleChoiceDialog.getattr obj name) cs with
  | Ok objs =>
      mapM (SingleChoiceDialog.choice_string name) cs = Some (map SingleChoiceDialog.str objs)
  | Raise _ => mapM (SingleChoiceDialog.choice_string name) cs = None
  end.
Proof.
  intros Hname. induction cs as [|c cs IH]; [done|].
  cbn [SingleChoiceDialog.comprehension mapM]. rewrite choice_string_getattr by done.
  destruct (SingleChoiceDialog.getattr c name) as [a|e]; [|done].
  destruct (SingleChoiceDialog.comprehension _ cs) as [objs|e]; by rewrite IH.
Qed.

Lemma plain_strings cs :
  mapM (SingleChoiceDialog.choice_string EmptyString) cs = Some (map SingleChoiceDialog.str cs).
Proof.
  induction cs as [|c cs IH]; [done|]. cbn [mapM map]. by rewrite IH.
Qed.

(** C2.  [_choice_strings] raises [ValueError] when the choice list is
    empty and when the string representations of the choices contain a
    duplicate; for a non-empty list of choices whose string representations
    are pairwise different it returns these strings, in order. *)
Theorem choice_strings_rejects_empty_and_duplicates (self : SingleChoiceDialog.Dialog) :
  (SingleChoiceDialog.choices self = [] →
   SingleChoiceDialog._choice_strings self = Raise ValueError) ∧
  (∀ strings,
     SingleChoiceDialog.string_representations self = Some strings →
     ¬ NoDup strings →
     SingleChoiceDialog._choice_strings self = Raise ValueError) ∧
  (∀ strings,
     SingleChoiceDialog.string_representations self = Some strings →
     strings ≠ [] → NoDup strings →
     SingleChoiceDialog._choice_strings self = Ok strings).
Proof.
  unfold SingleChoiceDialog._choice_strings, SingleChoiceDialog.string_representations.
  destruct self as [cs name ch rc ctl]; cbn.
  assert (Hdecide : ∀ strings : list string,
    (if decide (length strings = 0) then Raise ValueError
     else if decide (length strings = length (remove_dups strings)) then Ok strings
          else Raise ValueError) =
    (if decide (strings = []) then Raise ValueError
     else if decide (NoDup strings) then Ok strings else Raise ValueError)).
  { intros strings. pose proof (remove_dups_same_length strings) as Hlen.
    destruct strings as [|x strings]; [done|].
    repeat case_decide; try done; naive_solver. }
  destruct (decide (name = EmptyString)) as [->|Hname].
  - rewrite plain_strings, Hdecide. repeat split.
    + intros ->. done.
    + intros strings [= <-] Hnd. case_decide; [done|]. by rewrite decide_False.
    + intros strings [= <-] Hne Hnd. by rewrite decide_False, decide_True.
  - pose proof (comprehension_getattr name cs Hname) as Hc.
    destruct (SingleChoiceDialog.comprehension _ cs) as [objs|e].
    + rewrite Hc, Hdecide. repeat split.
      * intros ->. cbn in Hc. injection Hc as <-. done.
      * intros strings [= <-] Hnd. case_decide; [done|]. by rewrite decide_False.
      * intros strings [= <-] Hne Hnd. by rewrite decide_False, decide_True.
    + rewrite Hc. repeat split; try done. intros ->. done.
Qed.

(** The dialog of the test-suite's [setUp], and two variants. *)
Definition colours : SingleChoiceDialog.Dialog :=
  SingleChoiceDialog.mkDialog
    [SingleChoiceDialog.Str "red"; SingleChoiceDialog.Str "blue"; SingleChoiceDialog.Str "green"]
    EmptyString (Some (SingleChoiceDialog.Str "red")) SingleChoiceDialog.OK None.

Definition described (description : SingleChoiceDialog.Value) : SingleChoiceDialog.Value :=
  SingleChoiceDialog.Obj "<Item object>" [("description", description)].

Definition numbered_items : SingleChoiceDialog.Dialog :=
  SingleChoiceDialog.mkDialog
    [described (SingleChoiceDialog.Int 1); described (SingleChoiceDialog.Int 2);
     described (SingleChoiceDialog.Int 3)]
    "description" None SingleChoiceDialog.OK None.

Definition repeated_colours : SingleChoiceDialog.Dialog :=
  SingleChoiceDialog.mkDialog
    [SingleChoiceDialog.Str "red"; SingleChoiceDialog.Str "green";
     SingleChoiceDialog.Str "blue"; SingleChoiceDialog.Str "green"]
    EmptyString None SingleChoiceDialog.OK None.

Lemma choice_strings_rejects_empty_and_duplicates_witness :
  SingleChoiceDialog._choice_strings numbered_items = Ok ["1"; "2"; "3"] ∧
  SingleChoiceDialog._choice_strings repeated_colours = Raise ValueError.
Proof.
  split.
  - apply (choice_strings_rejects_empty_and_duplicates numbered_items).
    + reflexivity.
    + discriminate.
    + apply (bool_decide_unpack _). vm_compute. reflexivity.
  - apply (proj1 (proj2 (choice_strings_rejects_empty_and_duplicates repeated_colours))
             ["red"; "green"; "blue"; "green"]).
    + reflexivity.
    + apply (bool_decide_unpack _). vm_compute. reflexivity.
Defined.

Example choice_strings_colours :
  SingleChoiceDialog._choice_strings colours = Ok ["red"; "blue"; "green"].
Proof. vm_compute. reflexivity. Qed.

(** ** [SingleChoiceDialog]: closing with and without acceptance *)







Example change_choice_accept :
  ∃ closed,
    SingleChoiceDialog.open colours
      [SingleChoiceDialog.SetTextValue "green"; SingleChoiceDialog.CloseAccept] = Ok closed ∧
    SingleChoiceDialog.choice closed = Some (SingleChoiceDialog.Str "green") ∧
    SingleChoiceDialog.return_code closed = SingleChoiceDialog.OK.
Proof. eexists. split; [vm_compute; reflexivity|]. split; reflexivity. Qed.

(** ** [toolkit_object] *)

Lemma split_no_colon s :
  Toolkit.has_colon s = false → Toolkit.split Toolkit.colon s = [s].
Proof.
  induction s as [|c s IH]; cbn; [done|].
  intros Hs. apply orb_false_iff in Hs as [Hc Hs]. by rewrite Hc, IH.
Qed.

Lemma split_module_class mname oname :
  Toolkit.has_colon mname = false → Toolkit.has_colon oname = false →
  Toolkit.split Toolkit.colon (mname +:+ String Toolkit.colon oname) = [mname; oname].
Proof.
  intros Hm Ho. induction mname as [|c mname IH].
  - change (Toolkit.split Toolkit.colon (String Toolkit.colon oname) = [EmptyString; oname]).
    cbn [Toolkit.split]. rewrite (split_no_colon oname Ho). reflexivity.
  - cbn in Hm. apply orb_false_iff in Hm as [Hc Hm].
    change (Toolkit.split Toolkit.colon
              (String c (mname +:+ String Toolkit.colon oname)) = [String c mname; oname]).
    cbn [Toolkit.split]. rewrite Hc, (IH Hm). reflexivity.
Qed.

(** C5.  For a specification "module:ClassName": when the active toolkit
    has no such module, or the module has no such attribute, [toolkit_object]
    returns normally, and what it returns is the sentinel class, whose
    [__name__] is 'Unimplemented'; when the toolkit has the class,
    [toolkit_object] returns it. *)
Theorem toolkit_object_unimplemented
    (toolkit : gmap string (gmap string Toolkit.Class)) (mname oname : string) :
  Toolkit.has_colon mname = false → Toolkit.has_colon oname = false →
  let result := Toolkit.toolkit_object toolkit (mname +:+ String Toolkit.colon oname) in
  (Toolkit.resolve toolkit mname oname = None →
   result = Ok Toolkit.Unimplemented ∧
   Toolkit.class_name Toolkit.Unimplemented = "Unimplemented") ∧
  (∀ class, Toolkit.resolve toolkit mname oname = Some class → result = Ok class).
Proof.
  intros Hm Ho. cbv zeta. unfold Toolkit.toolkit_object, Toolkit.resolve.
  rewrite split_module_class by done.
  destruct (toolkit !! mname) as [module|]; cbn.
  - destruct (module !! oname) as [class|]; split; try done.
    intros class' [= <-]. done.
  - split; done.
Qed.

(** A toolkit with one module, as in the test-suite's import of the modal
    dialog tester. *)
Definition qt_toolkit : gmap string (gmap string Toolkit.Class) :=
  {[ "window" := {[ "Window" := Toolkit.mkClass "Window" true ]} ]}.

Lemma toolkit_object_unimplemented_witness :
  Toolkit.toolkit_object qt_toolkit "util.modal_dialog_tester:ModalDialogTester"
    = Ok Toolkit.Unimplemented ∧
  Toolkit.class_name Toolkit.Unimplemented = "Unimplemented".
Proof.
  apply (toolkit_object_unimplemented qt_toolkit "util.modal_dialog_tester"
           "ModalDialogTester"); reflexivity.
Defined.

Example toolkit_object_window :
  Toolkit.toolkit_object qt_toolkit "window:Window" = Ok (Toolkit.mkClass "Window" true).
Proof. vm_compute. reflexivity. Qed.

Example toolkit_object_no_attribute :
  Toolkit.toolkit_object qt_toolkit "window:Frame" = Ok Toolkit.Unimplemented.
Proof. vm_compute. reflexivity. Qed.

(** ** [Action.perform] and [Action.destroy] *)

(** C7.  For every event: [perform] on an action whose [on_perform] is
    unset returns normally and calls nothing; [destroy] returns normally
    and calls nothing. *)
Theorem perform_without_handler
    (handler_raises : nat → option Exc) (self : Action.Action)
    (event : Action.ActionEvent) (called : list nat) :
  Action.on_perform self = None →
  Action.perform handler_raises self event called = (Ok tt, called) ∧
  Action.destroy self called = (Ok tt, called).
Proof.
  intros Hnone. unfold Action.perform, Action.destroy. by rewrite Hnone.
Qed.

Definition test_action : Action.Action := Action.mkAction "Test" "Test" None.

Lemma perform_without_handler_witness :
  Action.perform (λ _, Some (RuntimeError 0)) test_action (Action.mkActionEvent 0) []
    = (Ok tt, []) ∧
  Action.destroy test_action [] = (Ok tt, []).
Proof.
  apply (perform_without_handler (λ _, Some (RuntimeError 0)) test_action
           (Action.mkActionEvent 0) []).
  reflexivity.
Defined.

Example perform_calls_handler :
  Action.perform (λ _, None) (Action.mkAction "Test" "Test" (Some 4))
    (Action.mkActionEvent 0) [] = (Ok tt, [4]).
Proof. reflexivity. Qed.

(** ** Creating and destroying a window or dialog *)

(** C8.  For a window or dialog that has no control yet, whatever its
    message and cancel flag, and with no parent or a parent whose handle is
    valid: [_create] returns normally and [destroy] of what it created
    returns normally too, leaving the widget without control and the toolkit
    with the handles it had; and [destroy] on the widget that never created
    a control returns normally and changes nothing. *)
Theorem create_then_destroy (self : Widget.Widget) (valid : gset nat) :
  Widget.control self = None →
  (∀ p, Widget.parent self = Some p → p ∈ valid) →
  (∃ created valid',
     Widget._create self valid = (Ok created, valid') ∧
     is_Some (Widget.control created) ∧
     Widget.destroy created valid' = (Ok self, valid)) ∧
  Widget.destroy self valid = (Ok self, valid).
Proof.
  intros Hcontrol Hparent. split.
  - exists (Widget.set_control (Some (fresh valid)) self), (valid ∪ {[fresh valid]}).
    assert (Hcreate : Widget.native_create (Widget.parent self) valid =
                      (Ok (fresh valid), valid ∪ {[fresh valid]})).
    { unfold Widget.native_create. destruct (Widget.parent self) as [p|]; [|done].
      rewrite decide_True; [done|]. by apply Hparent. }
    split; [|split].
    + unfold Widget._create. by erewrite bind_returns by exact Hcreate.
    + by eexists.
    + unfold Widget.destroy, Widget.native_destroy. cbn.
      unfold mbind, py_bind, Py.bind. rewrite decide_True by set_solver.
      unfold mret, py_ret, Py.ret. f_equal.
      * f_equal. destruct self as [k c p m b]. cbn in *. by subst c.
      * pose proof (is_fresh valid). set_solver.
  - unfold Widget.destroy. by rewrite Hcontrol.
Qed.

Definition plain_dialog : Widget.Widget :=
  Widget.mkWidget Widget.Dialog None None EmptyString true.

Definition child_dialog : Widget.Widget :=
  Widget.mkWidget Widget.Dialog None (Some 0) "This is the message" false.

Lemma create_then_destroy_witness :
  (∃ created valid',
     Widget._create child_dialog {[0]} = (Ok created, valid') ∧
     is_Some (Widget.control created) ∧
     Widget.destroy created valid' = (Ok child_dialog, {[0]})) ∧
  Widget.destroy child_dialog {[0]} = (Ok child_dialog, {[0]}).
Proof.
  apply (create_then_destroy child_dialog {[0]}).
  - reflexivity.
  - intros p [= <-]. apply elem_of_singleton. reflexivity.
Defined.

(** * Further properties of the code *)

(** ** [PythonShell.execute_file]: the interpreter's namespace and the control *)

(** X1.  When [execute_file] raises, whatever the reason, the interpreter's
    locals are what they were. *)
Theorem execute_file_failure_keeps_locals
    (load : string → Exc + PythonShell.Code)
    (ctl_raises : PythonShell.CtlCall → option Exc)
    (path : string) (hidden : bool) (w : PythonShell.World) :
  raises (PythonShell.execute_file load ctl_raises path hidden w).1 = true →
  PythonShell.locals (PythonShell.execute_file load ctl_raises path hidden w).2
    = PythonShell.locals w.
Proof.
  destruct (PythonShell.execute_file load ctl_raises path hidden w) as [r w'] eqn:Hrun.
  apply execute_file_outcome in Hrun
    as (_ & _ & _ & [(e & -> & Hl) | (ns' & _ & _ & -> & _)]).
  - intros _. exact Hl.
  - intros ?; discriminate.
Qed.

(** X2.  When [execute_file] returns, the script was loaded and ran to its
    end, starting with [sys.argv] the base name of the path, a fresh
    [__main__] and the three streams redirected, in a namespace that holds
    the module's names, [__file__] and [__nonzero__]; and the interpreter's
    locals are updated with what the script left in that namespace, less
    [__name__], [__file__] and [__nonzero__]: a name of the script wins over
    a local of the same name. *)
Theorem execute_file_success_updates_locals
    (load : string → Exc + PythonShell.Code)
    (ctl_raises : PythonShell.CtlCall → option Exc)
    (path : string) (hidden : bool) (w : PythonShell.World) :
  (PythonShell.execute_file load ctl_raises path hidden w).1 = Ok tt →
  ∃ ns',
    script_result load path hidden = Some ns' ∧
    PythonShell.locals (PythonShell.execute_file load ctl_raises path hidden w).2
      = script_globals ns' ∪ PythonShell.locals w ∧
    ∀ name value,
      script_globals ns' !! name = Some value →
      PythonShell.locals (PythonShell.execute_file load ctl_raises path hidden w).2 !! name
        = Some value.
Proof.
  destruct (PythonShell.execute_file load ctl_raises path hidden w) as [r w'] eqn:Hrun.
  apply execute_file_outcome in Hrun
    as (_ & _ & _ & [(e & -> & Hl) | (ns' & Hres & _ & -> & Hl & _)]).
  - intros ?; discriminate.
  - intros _. exists ns'. split; [exact Hres|]. split; [exact Hl|].
    intros name value Hname. cbn [snd]. rewrite Hl.
    apply lookup_union_Some_raw. left. exact Hname.
Qed.

(** X3.  A hidden [execute_file] makes no call on the control, whether it
    returns or raises. *)
Theorem execute_file_hidden_leaves_control
    (load : string → Exc + PythonShell.Code)
    (ctl_raises : PythonShell.CtlCall → option Exc)
    (path : string) (w : PythonShell.World) :
  PythonShell.ctl_log (PythonShell.execute_file load ctl_raises path true w).2
    = PythonShell.ctl_log w.
Proof.
  destruct (PythonShell.execute_file load ctl_raises path true w) as [r w'] eqn:Hrun.
  apply execute_file_outcome in Hrun as (_ & _ & Hctl & _). exact (Hctl eq_refl).
Qed.

(** X5.  A script that runs to its end but has removed one of [__name__],
    [__file__], [__nonzero__] from its namespace makes a hidden
    [execute_file] raise [KeyError] for a special name, after the script has
    run, and the interpreter's locals get none of the script's names. *)
Theorem execute_file_missing_special_name
    (load : string → Exc + PythonShell.Code)
    (ctl_raises : PythonShell.CtlCall → option Exc)
    (path : string) (w : PythonShell.World)
    (ns' : gmap string PythonShell.Value) (k : string) :
  script_result load path true = Some ns' →
  k ∈ special_names →
  ns' !! k = None →
  ∃ k',
    k' ∈ special_names ∧ ns' !! k' = None ∧
    (PythonShell.execute_file load ctl_raises path true w).1 = Raise (KeyError k') ∧
    PythonShell.locals (PythonShell.execute_file load ctl_raises path true w).2
      = PythonShell.locals w ∧
    PythonShell.exec_log (PythonShell.execute_file load ctl_raises path true w).2
      = PythonShell.exec_log w ++ [script_sys path true].
Proof.
  unfold script_result. intros Hres Hk Hmiss.
  destruct (load path) as [e|code] eqn:Hload; [discriminate|].
  destruct (code (script_sys path true) (script_namespace path)) as [[[]|e] [s' ns'']] eqn:Hcode;
    [|discriminate].
  injection Hres as ->.
  rewrite (execute_file_hidden_run load ctl_raises path w code s' ns' Hload Hcode).
  match goal with |- context [(?c ?w1).1] => destruct (c w1) as [r w'] eqn:Hrun end.
  apply update_interpreter in Hrun
    as (_ & _ & Hexec & [(k' & Hk' & Hmiss' & -> & Hl) | (Hall & _)]).
  - exists k'. split; [exact Hk'|]. split; [exact Hmiss'|]. split; [reflexivity|].
    split; [exact Hl|exact Hexec].
  - cbn [PythonShell.prog_ns] in Hall. rewrite Forall_forall in Hall.
    destruct (Hall k Hk) as [v Hv]. congruence.
Qed.

(** X6.  [execute_file] never hands one of the special names to the
    interpreter: after a call that returns, each of them is bound in the
    locals to what it was bound before, if to anything. *)
Theorem execute_file_keeps_special_names_out
    (load : string → Exc + PythonShell.Code)
    (ctl_raises : PythonShell.CtlCall → option Exc)
    (path : string) (hidden : bool) (w : PythonShell.World) (k : string) :
  k ∈ special_names →
  PythonShell.locals (PythonShell.execute_file load ctl_raises path hidden w).2 !! k
    = PythonShell.locals w !! k.
Proof.
  intros Hk.
  destruct (PythonShell.execute_file load ctl_raises path hidden w) as [r w'] eqn:Hrun.
  apply execute_file_outcome in Hrun
    as (_ & _ & _ & [(e & -> & Hl) | (ns' & _ & _ & -> & Hl & _)]);
    cbn [snd]; rewrite Hl; [reflexivity|].
  apply lookup_union_r. unfold script_globals.
  unfold special_names in Hk.
  apply elem_of_cons in Hk as [->|Hk].
  { do 2 rewrite lookup_delete_ne by discriminate. apply lookup_delete_eq. }
  apply elem_of_cons in Hk as [->|Hk].
  { rewrite lookup_delete_ne by discriminate. apply lookup_delete_eq. }
  apply elem_of_cons in Hk as [->|Hk]; [apply lookup_delete_eq|].
  by apply elem_of_nil in Hk.
Qed.

(** A console session, a control that never fails, and three files: one
    that cannot be read, one whose script binds [x], and one whose script
    deletes [__name__]. *)
Definition console : PythonShell.World :=
  PythonShell.mkWorld
    (PythonShell.mkSys ["app"] (PythonShell.Loaded 0)
       (PythonShell.File 0) (PythonShell.File 1) (PythonShell.File 2))
    (<["x" := PythonShell.VObj 1]> ∅) ∅ [] [].

Definition quiet_control (c : PythonShell.CtlCall) : option Exc := None.

Definition unreadable (path : string) : Exc + PythonShell.Code := inl (OSError path).

Definition binds_x (path : string) : Exc + PythonShell.Code :=
  inr (λ s ns, (Ok tt, (s, <["x" := PythonShell.VObj 2]> ns))).

Definition deletes_name (path : string) : Exc + PythonShell.Code :=
  inr (λ s ns, (Ok tt, (s, delete "__name__" ns))).

Lemma execute_file_failure_keeps_locals_witness :
  PythonShell.locals
    (PythonShell.execute_file unreadable quiet_control "/tmp/run.py" false console).2
  = PythonShell.locals console.
Proof.
  apply (execute_file_failure_keeps_locals unreadable quiet_control "/tmp/run.py" false console).
  reflexivity.
Defined.

Lemma execute_file_success_updates_locals_witness :
  ∃ ns',
    script_result binds_x "/tmp/run.py" false = Some ns' ∧
    PythonShell.locals
      (PythonShell.execute_file binds_x quiet_control "/tmp/run.py" false console).2
      = script_globals ns' ∪ PythonShell.locals console ∧
    ∀ name value,
      script_globals ns' !! name = Some value →
      PythonShell.locals
        (PythonShell.execute_file binds_x quiet_control "/tmp/run.py" false console).2 !! name
        = Some value.
Proof.
  apply (execute_file_success_updates_locals binds_x quiet_control "/tmp/run.py" false console).
  vm_compute. reflexivity.
Defined.

Example execute_file_script_wins :
  PythonShell.locals
    (PythonShell.execute_file binds_x quiet_control "/tmp/run.py" true console).2 !! "x"
  = Some (PythonShell.VObj 2).
Proof. vm_compute. reflexivity. Qed.

Lemma execute_file_missing_special_name_witness :
  ∃ k',
    k' ∈ special_names ∧
    delete "__name__" (script_namespace "/tmp/run.py") !! k' = None ∧
    (PythonShell.execute_file deletes_name quiet_control "/tmp/run.py" true console).1
      = Raise (KeyError k') ∧
    PythonShell.locals
      (PythonShell.execute_file deletes_name quiet_control "/tmp/run.py" true console).2
      = PythonShell.locals console ∧
    PythonShell.exec_log
      (PythonShell.execute_file deletes_name quiet_control "/tmp/run.py" true console).2
      = PythonShell.exec_log console ++ [script_sys "/tmp/run.py" true].
Proof.
  apply (execute_file_missing_special_name deletes_name quiet_control "/tmp/run.py" console
           (delete "__name__" (script_namespace "/tmp/run.py")) "__name__").
  - reflexivity.
  - apply list_elem_of_here.
  - vm_compute. reflexivity.
Defined.

Lemma execute_file_keeps_special_names_out_witness :
  PythonShell.locals
    (PythonShell.execute_file binds_x quiet_control "/tmp/run.py" true console).2 !! "__file__"
  = PythonShell.locals console !! "__file__".
Proof.
  apply (execute_file_keeps_special_names_out binds_x quiet_control "/tmp/run.py" true console).
  apply list_elem_of_further, list_elem_of_here.
Defined.

(** ** [PyShell.hidden_push]: the [waiting] and [more] flags *)



(** X7.  When the interpreter's [push] raises, [hidden_push] lets the
    exception through and leaves the shell marked as waiting: [waiting] was
    set before the call and is not reset on the way out, and [more] keeps
    its previous value. *)
Theorem hidden_push_interrupted_stays_waiting
    (interp_push : string → Exc + bool) (handler_raises : nat → option Exc)
    (command : string) (sh : PyShell.Shell) (e : Exc) :
  interp_push command = inl e →
  let out := PyShell.hidden_push interp_push handler_raises command sh in
  out.1 = Raise e ∧
  PyShell.waiting out.2 = true ∧
  PyShell.more out.2 = PyShell.more sh.
Proof.
  intros Hpush. cbv zeta.
  unfold PyShell.hidden_push, PyShell.push_interp, PyShell.set_waiting, PyShell.set_more,
    PyShell.call.
  py_unfold. cbn. rewrite Hpush. cbn. repeat split; reflexivity.
Qed.


Definition interrupted (command : string) : Exc + bool := inl (RuntimeError 2).

Lemma hidden_push_interrupted_stays_waiting_witness :
  let out := PyShell.hidden_push interrupted first_raises "x = 1" two_handlers in
  out.1 = Raise (RuntimeError 2) ∧
  PyShell.waiting out.2 = true ∧
  PyShell.more out.2 = PyShell.more two_handlers.
Proof.
  apply (hidden_push_interrupted_stays_waiting interrupted first_raises "x = 1" two_handlers
           (RuntimeError 2)).
  reflexivity.
Defined.


(** ** [PyShell.autoCompleteShow]: a filter that matches nothing *)

Lemma filter_no_prefix (f : string) (values : list string) :
  Forall (λ v, String.prefix f v = false) values →
  List.filter (String.prefix f) values = [].
Proof.
  induction 1 as [|v values Hv _ IH]; [reflexivity|]. cbn. by rewrite Hv.
Qed.

(** X20.  When the interpreter has candidates but none starts with the
    filter, the popup is still shown, with no entry at all, and
    [autocomp_list] is left empty. *)
Theorem autoCompleteShow_no_match
    (getAutoCompleteList : string → bool → bool → bool → list string)
    (command : string) (offset : Z) (f : string) (sh : PyShell.Shell) :
  f ≠ EmptyString →
  getAutoCompleteList command (PyShell.autoCompleteIncludeMagic sh) false false ≠ [] →
  Forall (λ v, String.prefix f v = false)
    (getAutoCompleteList command (PyShell.autoCompleteIncludeMagic sh) false false) →
  let out := PyShell.autoCompleteShow getAutoCompleteList command offset (Some f) sh in
  out.1 = Ok tt ∧
  PyShell.autocomp_list out.2 = [] ∧
  last (PyShell.calls out.2) = Some (PyShell.AutoCompShow offset EmptyString).
Proof.
  intros Hf Hvalues Hnone. cbv zeta.
  unfold PyShell.autoCompleteShow, PyShell.call, PyShell.set_autocomp_list.
  unfold mbind, py_bind, Py.bind, Py.modify, Py.get. cbn -[for_each].
  destruct (getAutoCompleteList _ _ _ _) as [|v values] eqn:Hv; [done|].
  destruct f as [|c f]; [done|]. cbn -[for_each List.filter String.prefix].
  rewrite for_each_filter, (filter_no_prefix _ _ Hnone).
  cbn. split; [reflexivity|]. split; [reflexivity|]. by rewrite last_snoc.
Qed.

Lemma autoCompleteShow_no_match_witness :
  let out := PyShell.autoCompleteShow some_candidates "l." 0 (Some "x") two_handlers in
  out.1 = Ok tt ∧
  PyShell.autocomp_list out.2 = [] ∧
  last (PyShell.calls out.2) = Some (PyShell.AutoCompShow 0 EmptyString).
Proof.
  apply (autoCompleteShow_no_match some_candidates "l." 0 "x" two_handlers).
  - discriminate.
  - discriminate.
  - repeat constructor.
Defined.

(** ** [PyShell.code_completion] and [PyShell.OnKeyDown] *)

Section CodeCompletion.

Import Completion.

(** The text before and after the index that follows the last [c]. *)
Lemma rfind_split (c : ascii) (s : list ascii) :
  ∃ kept suffix,
    s = kept ++ suffix ∧
    len kept = (rfind c s + 1)%Z ∧
    (c ∉ suffix) ∧
    (kept = [] ∨ last kept = Some c).
Proof.
  unfold len. induction s as [|x rest (kept & suffix & Hs & Hlen & Hnot & Hlast)].
  - exists [], []. split; [reflexivity|]. split; [reflexivity|].
    split; [apply not_elem_of_nil|by left].
  - cbn [rfind]. destruct (Z.leb 0 (rfind c rest)) eqn:Hfound.
    + apply Z.leb_le in Hfound.
      destruct Hlast as [->|Hlast]; [cbn in Hlen; lia|].
      exists (x :: kept), suffix. split; [by rewrite Hs|].
      split; [cbn [length]; lia|]. split; [exact Hnot|]. right.
      rewrite last_cons, Hlast. reflexivity.
    + apply Z.leb_gt in Hfound.
      assert (kept = []) as -> by (destruct kept; [reflexivity|cbn [length] in Hlen; lia]).
      cbn [app] in Hs. subst rest.
      destruct (Ascii.eqb x c) eqn:Hx.
      * apply Ascii.eqb_eq in Hx as ->. exists [c], suffix.
        split; [reflexivity|]. split; [reflexivity|]. split; [exact Hnot|by right].
      * apply Ascii.eqb_neq in Hx. exists [], (x :: suffix).
        split; [reflexivity|]. split; [reflexivity|].
        split; [|by left]. intros [->|Hin]%elem_of_cons; [by apply Hx|by apply Hnot].
Qed.

(** The command is what lies between the end of the prompt and the cursor. *)
Lemma command_range (pre command post : list ascii) :
  take (Z.to_nat (len (pre ++ command) - len pre))
    (drop (Z.to_nat (len pre)) (pre ++ command ++ post)) = command.
Proof.
  unfold len. rewrite length_app.
  match goal with |- context [drop (Z.to_nat ?a)] =>
    replace (Z.to_nat a) with (length pre) by lia end.
  rewrite drop_app_length.
  match goal with |- context [take (Z.to_nat ?a)] =>
    replace (Z.to_nat a) with (length command) by lia end.
  apply take_app_length.
Qed.

(** Deleting from the index after the separator up to the cursor. *)
Lemma delete_suffix (pre kept suffix post : list ascii) :
  take (Z.to_nat (len (pre ++ kept ++ suffix) - len (kept ++ suffix) + len kept))
    (pre ++ (kept ++ suffix) ++ post)
  ++ drop (Z.to_nat (len (pre ++ kept ++ suffix) - len (kept ++ suffix) + len kept
                     + (len (kept ++ suffix) - len kept)))
       (pre ++ (kept ++ suffix) ++ post)
  = pre ++ kept ++ post.
Proof.
  unfold len. rewrite !length_app.
  match goal with |- context [take (Z.to_nat ?a)] =>
    replace (Z.to_nat a) with (length pre + length kept) by lia end.
  match goal with |- context [drop (Z.to_nat ?a)] =>
    replace (Z.to_nat a) with (length pre + length (kept ++ suffix))
      by (rewrite length_app; lia) end.
  rewrite drop_app_add, drop_app_length, take_app_add.
  rewrite <- (app_assoc kept suffix post), take_app_length.
  by rewrite <- app_assoc.
Qed.

(** Whatever [code_completion] does, the popup is closed afterwards when it
    was open, and the list of entries, the end of the prompt and the keys
    handed on to the base class are what they were. *)
Lemma code_completion_frame (self : Editor) :
  let out := code_completion self in
  autocomp_active out.2 = false ∧
  autocomp_list out.2 = autocomp_list self ∧
  promptPosEnd out.2 = promptPosEnd self ∧
  forwarded out.2 = forwarded self.
Proof.
  cbv zeta. unfold code_completion.
  destruct (autocomp_active self) eqn:Hactive; [|done].
  cbv zeta.
  match goal with |- context [match ?g with _ => _ end] => destruct g end;
    cbn; done.
Qed.

End CodeCompletion.

(** X11.  With the popup open, the text [command] between the end of the
    prompt and the cursor, and a current entry [value] of the list:
    [code_completion] removes what was typed after the last dot of
    [command] (the whole of it when there is no dot), keeps the text on both
    sides of it, puts [value] at the very end of the text, which is after
    whatever follows the cursor, moves cursor and anchor to the end, and
    closes the popup. *)
Theorem code_completion_replaces_suffix
    (self : Completion.Editor) (pre command post : list ascii) (value : string) :
  Completion.autocomp_active self = true →
  Completion.text self = pre ++ command ++ post →
  Completion.promptPosEnd self = Completion.len pre →
  Completion.current_pos self = Completion.len (pre ++ command) →
  Completion.getitem (Completion.autocomp_list self) (Completion.autocomp_current self)
    = Some value →
  ∃ kept suffix,
    command = kept ++ suffix ∧
    ("."%char ∉ suffix) ∧
    (kept = [] ∨ last kept = Some "."%char) ∧
    Completion.code_completion self =
      (None,
       Completion.mkEditor
         (pre ++ kept ++ post ++ String.list_ascii_of_string value)
         (Completion.len (pre ++ kept ++ post ++ String.list_ascii_of_string value))
         (Completion.len (pre ++ kept ++ post ++ String.list_ascii_of_string value))
         (Completion.promptPosEnd self) false (Completion.autocomp_current self)
         (Completion.autocomp_list self) (Completion.forwarded self)).
Proof.
  intros Hactive Htext Hprompt Hpos Hvalue.
  destruct (rfind_split "."%char command) as (kept & suffix & Hcmd & Hlen & Hnot & Hlast).
  exists kept, suffix. split; [exact Hcmd|]. split; [exact Hnot|]. split; [exact Hlast|].
  unfold Completion.code_completion. rewrite Hactive. cbv zeta.
  unfold Completion.GetTextRange, Completion.DeleteRange, Completion.AutoCompCancel.
  cbn [Completion.text Completion.current_pos Completion.anchor Completion.promptPosEnd
       Completion.autocomp_active Completion.autocomp_current Completion.autocomp_list
       Completion.forwarded].
  rewrite Htext, Hprompt, Hpos, command_range, Hvalue, <- Hlen.
  subst command. rewrite delete_suffix.
  unfold Completion.AppendText, Completion.SetCurrentPos, Completion.SetAnchor,
    Completion.TextLength, Completion.len.
  cbn [Completion.text Completion.current_pos Completion.anchor Completion.promptPosEnd
       Completion.autocomp_active Completion.autocomp_current Completion.autocomp_list
       Completion.forwarded].
  by rewrite <- !app_assoc.
Qed.

(** X12.  With the popup open and a current index that is outside the list
    of entries, [code_completion] raises [IndexError] after it has closed
    the popup and removed what was typed after the last dot: the text is not
    what it was, and nothing was put in. *)
Theorem code_completion_index_error
    (self : Completion.Editor) (pre command post : list ascii) :
  Completion.autocomp_active self = true →
  Completion.text self = pre ++ command ++ post →
  Completion.promptPosEnd self = Completion.len pre →
  Completion.current_pos self = Completion.len (pre ++ command) →
  (Z.of_nat (length (Completion.autocomp_list self)) ≤ Completion.autocomp_current self ∨
   Completion.autocomp_current self < - Z.of_nat (length (Completion.autocomp_list self)))%Z →
  let out := Completion.code_completion self in
  out.1 = Some Completion.IndexError ∧
  Completion.autocomp_active out.2 = false ∧
  ∃ kept suffix,
    command = kept ++ suffix ∧
    ("."%char ∉ suffix) ∧
    (kept = [] ∨ last kept = Some "."%char) ∧
    Completion.text out.2 = pre ++ kept ++ post ∧
    Completion.current_pos out.2 = Completion.len (pre ++ kept).
Proof.
  intros Hactive Htext Hprompt Hpos Hindex. cbv zeta.
  destruct (rfind_split "."%char command) as (kept & suffix & Hcmd & Hlen & Hnot & Hlast).
  assert (Hnone : Completion.getitem (Completion.autocomp_list self)
                    (Completion.autocomp_current self) = None).
  { unfold Completion.getitem.
    destruct (Z.leb 0 (Completion.autocomp_current self)) eqn:H0.
    - apply Z.leb_le in H0. apply lookup_ge_None. lia.
    - apply Z.leb_gt in H0.
      destruct (Z.leb _ _) eqn:H1; [|reflexivity]. apply Z.leb_le in H1. lia. }
  unfold Completion.code_completion. rewrite Hactive. cbv zeta.
  unfold Completion.GetTextRange, Completion.DeleteRange, Completion.AutoCompCancel.
  cbn [Completion.text Completion.current_pos Completion.anchor Completion.promptPosEnd
       Completion.autocomp_active Completion.autocomp_current Completion.autocomp_list
       Completion.forwarded].
  rewrite Htext, Hprompt, Hpos, command_range, Hnone, <- Hlen.
  cbn [fst snd Completion.text Completion.current_pos Completion.autocomp_active].
  split; [reflexivity|]. split; [reflexivity|].
  exists kept, suffix. split; [exact Hcmd|]. split; [exact Hnot|]. split; [exact Hlast|].
  subst command. split; [apply delete_suffix|].
  unfold Completion.moved, Completion.len. rewrite !length_app.
  destruct (Z.leb _ _) eqn:Hle; [lia|]. apply Z.leb_gt in Hle. lia.
Qed.

(** X13.  A key pressed while the popup is open reaches the base class
    unless it is TAB or RETURN; these two complete the entry and go no
    further, so RETURN does not run the command.  With the popup closed every
    key reaches the base class.  After a completion the popup is closed and
    the list of entries is what it was. *)
Theorem OnKeyDown_stops_completion_keys
    (base_OnKeyDown : Z → Completion.Editor → Completion.Editor)
    (key : Z) (self : Completion.Editor) :
  let out := Completion.OnKeyDown base_OnKeyDown key self in
  if Completion.autocomp_active self && bool_decide (key = 9 ∨ key = 13)%Z
  then out = Completion.code_completion self ∧
       Completion.forwarded out.2 = Completion.forwarded self ∧
       Completion.autocomp_active out.2 = false ∧
       Completion.autocomp_list out.2 = Completion.autocomp_list self
  else out.1 = None ∧
       Completion.forwarded out.2 = Completion.forwarded self ++ [key].
Proof.
  cbv zeta. unfold Completion.OnKeyDown.
  destruct (Completion.autocomp_active self) eqn:Hactive; cbn [andb]; [|split; reflexivity].
  assert (Hkeys : bool_decide (key ∈ [Completion.WXK_TAB; Completion.WXK_RETURN])
                  = bool_decide (key = 9 ∨ key = 13)%Z).
  { apply bool_decide_ext. unfold Completion.WXK_TAB, Completion.WXK_RETURN.
    rewrite !elem_of_cons, elem_of_nil. tauto. }
  rewrite Hkeys. clear Hkeys.
  destruct (bool_decide (key = 9 ∨ key = 13)%Z); [|split; reflexivity].
  destruct (code_completion_frame self) as (Ha & Hl & _ & Hf).
  split; [reflexivity|]. split; [exact Hf|]. split; [exact Ha|exact Hl].
Qed.

(** The shell after [os.pa] was typed at the prompt, with the popup open on
    two entries of which number [current] is selected. *)
Definition typing (current : Z) : Completion.Editor :=
  Completion.mkEditor (String.list_ascii_of_string ">>> os.pa") 9 9 4 true current
    ["path"; "pardir"] [].

Lemma code_completion_replaces_suffix_witness :
  ∃ kept suffix,
    String.list_ascii_of_string "os.pa" = kept ++ suffix ∧
    ("."%char ∉ suffix) ∧
    (kept = [] ∨ last kept = Some "."%char) ∧
    Completion.code_completion (typing 1) =
      (None,
       Completion.mkEditor
         (String.list_ascii_of_string ">>> " ++ kept ++ [] ++
          String.list_ascii_of_string "pardir")
         (Completion.len (String.list_ascii_of_string ">>> " ++ kept ++ [] ++
                          String.list_ascii_of_string "pardir"))
         (Completion.len (String.list_ascii_of_string ">>> " ++ kept ++ [] ++
                          String.list_ascii_of_string "pardir"))
         (Completion.promptPosEnd (typing 1)) false (Completion.autocomp_current (typing 1))
         (Completion.autocomp_list (typing 1)) (Completion.forwarded (typing 1))).
Proof.
  apply (code_completion_replaces_suffix (typing 1)
           (String.list_ascii_of_string ">>> ") (String.list_ascii_of_string "os.pa") []
           "pardir"); reflexivity.
Defined.

Lemma code_completion_index_error_witness :
  let out := Completion.code_completion (typing 2) in
  out.1 = Some Completion.IndexError ∧
  Completion.autocomp_active out.2 = false ∧
  ∃ kept suffix,
    String.list_ascii_of_string "os.pa" = kept ++ suffix ∧
    ("."%char ∉ suffix) ∧
    (kept = [] ∨ last kept = Some "."%char) ∧
    Completion.text out.2 = String.list_ascii_of_string ">>> " ++ kept ++ [] ∧
    Completion.current_pos out.2
      = Completion.len (String.list_ascii_of_string ">>> " ++ kept).
Proof.
  apply (code_completion_index_error (typing 2)
           (String.list_ascii_of_string ">>> ") (String.list_ascii_of_string "os.pa") []);
    [reflexivity|reflexivity|reflexivity|reflexivity|].
  left. vm_compute. discriminate.
Defined.

Example code_completion_path :
  Completion.text (Completion.code_completion (typing 0)).2
  = String.list_ascii_of_string ">>> os.path".
Proof. reflexivity. Qed.

(** With the cursor inside the line, the entry still goes to the end. *)
Example code_completion_inside_line :
  Completion.text
    (Completion.code_completion
       (Completion.mkEditor (String.list_ascii_of_string ">>> f(os.pa)") 11 11 4 true 0
          ["path"; "pardir"] [])).2
  = String.list_ascii_of_string ">>> f(os.)path".
Proof. reflexivity. Qed.

(** A current index of [-1] selects the last entry. *)
Example code_completion_negative_index :
  Completion.text (Completion.code_completion (typing (-1))).2
  = String.list_ascii_of_string ">>> os.pardir".
Proof. reflexivity. Qed.

(** ** [GuiTestAssistant.event_loop_until_condition] *)

(** X9.  [ConditionTimeoutError] never leaves [event_loop_until_condition].
    For a block that returns, the call returns exactly when the condition
    gets set within the timeout, and when it does not, the caller gets the
    test failure, [AssertionError], in place of the timeout. *)
Theorem event_loop_until_condition_hides_timeout
    (traits : gset string) (timeout : nat) (pending : list string)
    (b : GuiTestAssistant.Block) (s : GuiTestAssistant.State) :
  let after_block := foldl (GuiTestAssistant.notify traits) s (GuiTestAssistant.fired b) in
  let out := GuiTestAssistant.event_loop_until_condition traits timeout pending b s in
  out.1 ≠ Raise ConditionTimeoutError ∧
  (GuiTestAssistant.outcome b = None →
   (out.1 = Ok tt ↔
      ∃ k : nat, (k ≤ timeout)%nat ∧
        GuiTestAssistant.condition
          (foldl (GuiTestAssistant.notify traits) after_block (take k pending)) = true) ∧
   (out.1 = Raise AssertionError ↔
      ∀ k : nat, (k ≤ timeout)%nat →
        GuiTestAssistant.condition
          (foldl (GuiTestAssistant.notify traits) after_block (take k pending)) = false)).
Proof.
  cbv zeta. split.
  - unfold GuiTestAssistant.event_loop_until_condition.
    destruct ((GuiTestAssistant.run_block traits b ;;
               GuiTestAssistant.helper_event_loop_until_condition traits timeout pending) s)
      as [[[]|e] s'].
    + discriminate.
    + destruct e; discriminate.
  - intros Hb.
    unfold GuiTestAssistant.event_loop_until_condition, GuiTestAssistant.run_block,
      GuiTestAssistant.fail, Py.raise.
    unfold mbind, py_bind, Py.bind. rewrite Hb.
    set (after_block := foldl (GuiTestAssistant.notify traits) s (GuiTestAssistant.fired b)).
    pose proof (helper_returns traits timeout pending after_block) as Hret.
    pose proof (helper_raises traits timeout pending after_block) as Hraise.
    destruct (GuiTestAssistant.helper_event_loop_until_condition traits timeout pending
                after_block) as [r s'].
    cbn [fst snd] in Hret, Hraise.
    destruct Hraise as [-> | ->]; cbn [fst].
    + split; [split; [intros _; by apply Hret|done]|].
      split; [discriminate|]. intros Hnever.
      destruct (proj1 Hret eq_refl) as (k & Hk & Hset).
      rewrite (Hnever k Hk) in Hset. discriminate.
    + split.
      * split; [discriminate|]. intros Hset. by apply Hret in Hset.
      * split; [|done]. intros _ k Hk.
        destruct (GuiTestAssistant.condition _) eqn:Hc; [|reflexivity].
        assert (Raise ConditionTimeoutError = Ok tt) as Habs; [|discriminate].
        apply Hret. by exists k.
Qed.

(** A block that fires nothing and returns. *)
Definition idle_block : GuiTestAssistant.Block := GuiTestAssistant.mkBlock [] None.

Lemma event_loop_until_condition_hides_timeout_witness :
  (GuiTestAssistant.event_loop_until_condition {["name"]} 2 ["name"]
     idle_block observed_object).1 = Raise AssertionError.
Proof.
  apply (proj2 (proj2 (event_loop_until_condition_hides_timeout {["name"]} 2 ["name"]
                         idle_block observed_object) eq_refl)).
  intros k Hk. destruct k as [|[|[|k]]]; [vm_compute; reflexivity..|lia].
Defined.

(** X10.  When the block raises, the event loop is not entered: not a
    single turn is spent waiting, and the exception of the block is what the
    caller gets, but for [ConditionTimeoutError], which becomes the test
    failure. *)
Theorem event_loop_until_condition_block_raises
    (traits : gset string) (timeout : nat) (pending : list string)
    (b : GuiTestAssistant.Block) (s : GuiTestAssistant.State) (e : Exc) :
  GuiTestAssistant.outcome b = Some e →
  let out := GuiTestAssistant.event_loop_until_condition traits timeout pending b s in
  out.1 = Raise (match e with ConditionTimeoutError => AssertionError | _ => e end) ∧
  GuiTestAssistant.waited out.2 = GuiTestAssistant.waited s.
Proof.
  intros Hb. cbv zeta.
  unfold GuiTestAssistant.event_loop_until_condition, GuiTestAssistant.run_block,
    GuiTestAssistant.fail, Py.raise.
  unfold mbind, py_bind, Py.bind. rewrite Hb.
  destruct e; cbn [fst snd]; (split; [reflexivity|apply notify_all_waited]).
Qed.

Lemma event_loop_until_condition_block_raises_witness :
  let out :=
    GuiTestAssistant.event_loop_until_condition {["name"]} 5 ["name"]
      raising_block observed_object in
  out.1 = Raise (RuntimeError 7) ∧
  GuiTestAssistant.waited out.2 = GuiTestAssistant.waited observed_object.
Proof.
  apply (event_loop_until_condition_block_raises {["name"]} 5 ["name"]
           raising_block observed_object (RuntimeError 7)).
  reflexivity.
Defined.

(** ** [Window]: position, size and the wx event handlers *)

(** X14.  Setting the position and reading it back gives the position set,
    whether the native frame exists or not.  The frame, when there is one, is
    moved first; then one change of the [position] property is announced,
    with the position held before as the old value; the size is untouched.
    The same holds of the size, with [SetSize] and the [size] property. *)
Theorem set_position_then_get (position size : Z * Z) (self : Window.Window) :
  let moved := (Window._set_position position ;; Window._get_position) self in
  let resized := (Window._set_size size ;; Window._get_size) self in
  (moved.1 = Ok position ∧
   Window._size moved.2 = Window._size self ∧
   Window.calls moved.2 =
     Window.calls self
     ++ match Window.control self with
        | Some c => [Window.SetPosition c position]
        | None => []
        end
     ++ [Window.TraitPropertyChanged "position" (Window._position self) position]) ∧
  (resized.1 = Ok size ∧
   Window._position resized.2 = Window._position self ∧
   Window.calls resized.2 =
     Window.calls self
     ++ match Window.control self with
        | Some c => [Window.SetSize c size]
        | None => []
        end
     ++ [Window.TraitPropertyChanged "size" (Window._size self) size]).
Proof.
  cbv zeta.
  unfold Window._set_position, Window._get_position, Window._set_size, Window._get_size,
    Window.call, Window.set__position, Window.set__size.
  unfold mbind, py_bind, Py.bind, Py.modify, Py.get, mret, py_ret, Py.ret.
  destruct (Window.control self) as [c|]; cbn.
  - split; (split; [reflexivity|]; split; [reflexivity|]); by rewrite <- app_assoc.
  - split; (split; [reflexivity|]; split; reflexivity).
Qed.

(** X15.  The move handler cannot raise and always lets the event go on:
    whatever the event yields, a position or an exception, [Skip] is called
    once, as the only call, so no change of a property is announced.  The
    shadow position becomes the position of the event, and stays what it was
    when reading the event raised. *)
Theorem wx_on_control_move_never_raises (position : Exc + Z * Z) (self : Window.Window) :
  let out := Window._wx_on_control_move position self in
  out.1 = Ok tt ∧
  Window.calls out.2 = Window.calls self ++ [Window.Skip] ∧
  Window._position out.2 =
    match position with
    | inr p => p
    | inl _ => Window._position self
    end ∧
  Window._size out.2 = Window._size self ∧
  (Window._get_position out.2).1 = Ok (Window._position out.2).
Proof.
  cbv zeta.
  unfold Window._wx_on_control_move, Window.try_except_pass, Window.call,
    Window.set__position, Window._get_position.
  unfold mbind, py_bind, Py.bind, Py.modify, Py.get, Py.raise, mret, py_ret, Py.ret.
  destruct position as [e|p]; cbn; repeat split; reflexivity.
Qed.

(** One event handled: the frame is the same, and no call addresses the
    frame or announces a property. *)
Lemma event_handled (event : Window.Event) (self : Window.Window) :
  let out := Window._add_event_listeners event self in
  Window.control out.2 = Window.control self ∧
  ∃ new, Window.calls out.2 = Window.calls self ++ new ∧
         Forall (λ c, Window.is_feedback c = false) new.
Proof.
  cbv zeta.
  unfold Window._add_event_listeners, Window._wx_on_activate, Window._wx_on_control_size,
    Window._wx_on_control_move, Window._wx_on_char, Window.try_except_pass, Window.call,
    Window.set__position, Window.set__size.
  unfold mbind, py_bind, Py.bind, Py.modify, Py.raise, mret, py_ret, Py.ret.
  destruct event as [[]|[e|s]|[e|p]|alt control shift key_code]; cbn;
    (split; [reflexivity|]);
    try (exists []; split; [by rewrite app_nil_r|constructor]);
    rewrite <- ?app_assoc; eexists; (split; [reflexivity|]); repeat constructor.
Qed.

(** X16.  However many events the bound handlers are given, and whichever
    of them raises: the handlers never move or resize the native frame and
    never announce a change of the [position] or [size] property, although
    they do change the shadow traits; a move or resize made by the user does
    not come back to the frame. *)
Theorem wx_handlers_give_no_feedback (events : list Window.Event) (self : Window.Window) :
  let out := for_each Window._add_event_listeners events self in
  Window.control out.2 = Window.control self ∧
  ∃ new, Window.calls out.2 = Window.calls self ++ new ∧
         Forall (λ c, Window.is_feedback c = false) new.
Proof.
  cbv zeta. revert self. induction events as [|event events IH]; intros self.
  - cbn. split; [reflexivity|]. exists []. split; [by rewrite app_nil_r|constructor].
  - cbn [for_each]. unfold Py.bind at 1 2.
    destruct (event_handled event self) as (Hc & new & Hnew & Hall).
    destruct (Window._add_event_listeners event self) as [[[]|e] self1];
      cbn [fst snd] in Hc, Hnew |- *.
    + destruct (IH self1) as (Hc' & new' & Hnew' & Hall').
      split; [by rewrite Hc'|]. exists (new ++ new').
      split; [by rewrite Hnew', Hnew, app_assoc|by apply Forall_app].
    + split; [exact Hc|]. by exists new.
Qed.

(** ** [TestObject.__eq__]  (pyface/tests/test_clipboard.py) *)

Section TestObject.

Import TestClipboard.

Lemma all_equal_entries (other : TestObject) (items : list (string * Value)) :
  Forall (λ kv, dict_get kv.1 other = Some kv.2) items →
  all_equal other items = Ok true.
Proof.
  induction 1 as [|[k v] items Hkv _ IH]; [reflexivity|].
  cbn in Hkv |- *. unfold getattr. rewrite Hkv. by rewrite decide_True.
Qed.

End TestObject.

(** X18.  [__eq__] looks only at the attributes of [self]: when [other] has
    each of them with an equal value, the result is [True], whatever else
    [other] has.  An object without attributes equals every [TestObject]. *)
Theorem TestObject_eq_ignores_extra_attributes (self other : TestClipboard.TestObject) :
  Forall (λ kv, TestClipboard.dict_get kv.1 other = Some kv.2) self →
  TestClipboard.__eq__ self (TestClipboard.Test other) = Ok (Some true) ∧
  TestClipboard.__eq__ [] (TestClipboard.Test other) = Ok (Some true).
Proof.
  intros Hsub. unfold TestClipboard.__eq__.
  rewrite all_equal_entries by exact Hsub. split; reflexivity.
Qed.

(** The objects of the clipboard test: [TestObject(foo='bar')] and
    [TestObject(foo='bar', baz=1)]. *)
Definition foo_bar : TestClipboard.TestObject :=
  [("foo", TestClipboard.Str "bar")].

Definition foo_bar_baz : TestClipboard.TestObject :=
  [("foo", TestClipboard.Str "bar"); ("baz", TestClipboard.Int 1)].

Lemma TestObject_eq_ignores_extra_attributes_witness :
  TestClipboard.__eq__ foo_bar (TestClipboard.Test foo_bar_baz) = Ok (Some true) ∧
  TestClipboard.__eq__ [] (TestClipboard.Test foo_bar_baz) = Ok (Some true).
Proof.
  apply (TestObject_eq_ignores_extra_attributes foo_bar foo_bar_baz).
  repeat constructor.
Defined.

Example TestObject_eq_different_value :
  TestClipboard.__eq__ foo_bar
    (TestClipboard.Test [("foo", TestClipboard.Str "baz")])
  = Ok (Some false).
Proof. reflexivity. Qed.

Example TestObject_eq_other_type :
  TestClipboard.__eq__ foo_bar TestClipboard.Foreign = Ok None.
Proof. reflexivity. Qed.
